(** * connect-cosmosdb: the Cosmos DB session store of [src/index.ts]

    A shallow embedding of the [CosmosStore] class: its static singleton and
    configuration, the TTL resolver [getTTL], and the session operations,
    written in a small state-and-exception monad over the Cosmos SDK seen as
    an interface.

    Conventions of the embedding.
    - A JavaScript [number] that counts seconds or epoch milliseconds is an
      integer or [NaN] (the time value of an invalid [Date]).  Fractions and
      infinities are left out.  For a difference [d] of two time values
      with |d| < 2^53 the double [d / 1000] is an integer exactly when 1000
      divides [d], so [Math.ceil (d / 1000)] is the exact integer ceiling.
    - [undefined] is [None]; an object is a finite map from property names
      to values.
    - An [async] method is a computation that runs to completion; [await]
      is sequencing, a rejected promise is a thrown error.
    - A callback is known by its name; calling it is recorded in the trace,
      next to the requests sent to the SDK. *)

From stdpp Require Import base option gmap strings list fin_maps.
From Stdlib Require Import ZArith Lia Ascii.

Set Default Proof Using "Type".

(* ===================================================================== *)
(** ** JavaScript values *)
(* ===================================================================== *)

Module JS.

Inductive number :=
| Num (z : Z)
| NaN.

#[warnings="-register-all"]
Inductive value :=
| JNull
| JBool (b : bool)
| JNum (n : number)
| JStr (s : string)
| JDate (t : number)
| JArr (l : list value)
| JObj (o : gmap string value).

(** Truthiness, as used by [if], [!], [&&] and [||]. *)
Class Truthy (A : Type) := truthy : A → bool.
Global Hint Mode Truthy ! : typeclass_instances.

#[global] Instance truthy_bool : Truthy bool := λ b, b.

#[global] Instance truthy_string : Truthy string :=
  λ s, match s with EmptyString => false | _ => true end.

#[global] Instance truthy_number : Truthy number :=
  λ n, match n with Num z => negb (z =? 0)%Z | NaN => false end.

#[global] Instance truthy_value : Truthy value :=
  λ v, match v with
       | JNull => false
       | JBool b => b
       | JNum n => truthy n
       | JStr s => truthy s
       | JDate _ | JArr _ | JObj _ => true
       end.

(** [None] is [undefined]. *)
#[global] Instance truthy_option `{Truthy A} : Truthy (option A) :=
  λ o, match o with Some a => truthy a | None => false end.

(** [a || b] where [a] may be undefined and [b] is a constant. *)
Definition or_else `{Truthy A} (a : option A) (b : A) : A :=
  match a with
  | Some x => if truthy x then x else b
  | None => b
  end.

(** [v.k] for a truthy [v] and a name [k] that no prototype defines. *)
Definition prop (v : value) (k : string) : option value :=
  match v with
  | JObj o => o !! k
  | _ => None
  end.

(** [a - b] *)
Definition sub (a b : number) : number :=
  match a, b with
  | Num x, Num y => Num (x - y)
  | _, _ => NaN
  end.

(** [Math.ceil(a / k)] for a positive integer constant [k]. *)
Definition Math_ceil_div (a : number) (k : Z) : number :=
  match a with
  | Num x => Num (- ((- x) / k))
  | NaN => NaN
  end.

(** [a <= 0] *)
Definition le0 (a : number) : bool :=
  match a with
  | Num x => (x <=? 0)%Z
  | NaN => false
  end.

(** [0 < a], "a positive number". *)
Definition positive (a : number) : bool :=
  match a with
  | Num x => (0 <? x)%Z
  | NaN => false
  end.

End JS.

Import JS.

(** A session record, and any stored document: a JavaScript object. *)
Abbreviation SessionData := (gmap string value) (only parsing).
Abbreviation Doc := (gmap string value) (only parsing).

(* ===================================================================== *)
(** ** The Cosmos SDK, as the store uses it *)
(* ===================================================================== *)

Module Cosmos.

(** Handles.  [client.database(id)] and [database.container(id)] only build
    a handle; nothing is sent. *)
Record CosmosClient := { endpoint : string }.

Record Database := { db_client : CosmosClient; db_id : option string }.

Record Container := { c_database : Database; id : option string }.

Definition Database_container (d : Database) (name : option string) : Container :=
  {| c_database := d; id := name |}.

(** What a failed call throws: an [Error] of the store itself, a
    [TypeError] of the language, or the SDK's [ErrorResponse] with its
    status code. *)
Inductive Error :=
| JsError (message : string)
| TypeError (message : string)
| ErrorResponse (code : Z).

Inductive PatchOperationType := add | replace | remove | set | incr.

Record PatchOperation := {
  op : PatchOperationType;
  path : string;
  value : option JS.value;
}.

(** The SDK calls of [index.ts], with the arguments the store passes. *)
Inductive Request :=
| databases_createIfNotExists (client : CosmosClient) (id : option string)
| containers_createIfNotExists (d : Database) (id : option string)
    (defaultTtl : Z) (partitionKey : string)
| container_delete (c : Container)
| item_read (c : Container) (id partitionKey : string)
| item_delete (c : Container) (id partitionKey : string)
| item_patch (c : Container) (id partitionKey : string)
    (operations : list PatchOperation)
| items_upsert (c : Container) (body : Doc)
| items_create (c : Container) (body : Doc)
| items_readAll_fetchAll (c : Container)
| items_query_fetchAll (c : Container) (query : string).

(** The response object; the store destructures [resource], [resources]
    or [database] out of it and ignores the rest. *)
Record Response := {
  resource : option Doc;
  resources : option (list JS.value);
  database : option Database;
}.

Definition no_content : Response :=
  {| resource := None; resources := None; database := None |}.

(** The world outside the store: whatever answers the SDK calls, and the
    clock behind [Date.now()].  [new_Date v] is the time value of
    [new Date(v)] for a [v] that is not a [Date] (coercion and
    [Date.parse] are the host's). *)
Class Platform (W : Type) := {
  perform : Request → W → (Error + Response) * W;
  Date_now : W → Z;
  new_Date : JS.value → number;
}.

End Cosmos.

(* ===================================================================== *)
(** ** The store *)
(* ===================================================================== *)

Module CosmosStore.

(** [ttl?: number | { (session: SessionData): number }] *)
Inductive TTL :=
| TtlNumber (n : number)
| TtlFunction (f : SessionData → number).

#[global] Instance truthy_TTL : Truthy TTL :=
  λ t, match t with TtlNumber n => truthy n | TtlFunction _ => true end.

#[global] Instance truthy_CosmosClient : Truthy Cosmos.CosmosClient := λ _, true.

(** [CosmosStoreOptions].  The static [CosmosStore.options] has the same
    shape, [{}] being the record with every field undefined. *)
Record CosmosStoreOptions := {
  cosmosClient : option Cosmos.CosmosClient;
  databaseName : option string;
  containerName : option string;
  ttl : option TTL;
  disableTouch : option bool;
}.

Definition empty_options : CosmosStoreOptions :=
  {| cosmosClient := None; databaseName := None; containerName := None;
     ttl := None; disableTouch := None |}.

Definition PARTITION_KEY_PATH : string := "/id".
Definition DEFAULT_CONTAINER_NAME : string := "sessions".
Definition DEFAULT_TTL : number := Num 86400.

(** An instance: its two private handles, undefined until [setup]. *)
Record Instance := {
  database : option Cosmos.Database;
  container : option Cosmos.Container;
}.

(** A reference to an instance. *)
Definition ref := nat.

(** The callbacks: the module's [noop], or a function of the caller. *)
Inductive Callback :=
| noop
| Fn (name : string).

Inductive Arg :=
| ArgError (e : Cosmos.Error)
| ArgNull
| ArgUndefined
| ArgValue (v : value).

Inductive Event :=
| Sent (r : Cosmos.Request)
| Called (callback : Callback) (args : list Arg).

(** The state of the process: the two static fields of the class, the
    instances constructed so far, the world, and what has been observed. *)
Record Machine (W : Type) := {
  _store : option ref;
  options : CosmosStoreOptions;
  heap : gmap ref Instance;
  world : W;
  trace : list Event;
}.
Arguments _store {W} _.
Arguments options {W} _.
Arguments heap {W} _.
Arguments world {W} _.
Arguments trace {W} _.

Definition initial {W} (w : W) : Machine W :=
  {| _store := None; options := empty_options; heap := ∅; world := w;
     trace := [] |}.

(** Computations: a result or a thrown error, and the next state. *)
Definition M (W A : Type) : Type := Machine W → (Cosmos.Error + A) * Machine W.

#[global] Instance M_ret {W} : MRet (M W) := λ A a m, (inr a, m).

#[global] Instance M_bind {W} : MBind (M W) := λ A B f x m,
  match x m with
  | (inr a, m') => f a m'
  | (inl e, m') => (inl e, m')
  end.

Definition throw {W A} (e : Cosmos.Error) : M W A := λ m, (inl e, m).

(** [try { body } catch (error) { handler }] *)
Definition try_catch {W A} (body : M W A) (handler : Cosmos.Error → M W A) : M W A :=
  λ m, match body m with
       | (inr a, m') => (inr a, m')
       | (inl e, m') => handler e m'
       end.

Definition read {W A} (f : Machine W → A) : M W A := λ m, (inr (f m), m).

Definition log {W} (e : Event) : M W () := λ m,
  (inr (), {| _store := _store m; options := options m; heap := heap m;
              world := world m; trace := trace m ++ [e] |}).

Definition write_store {W} (s : option ref) : M W () := λ m,
  (inr (), {| _store := s; options := options m; heap := heap m;
              world := world m; trace := trace m |}).

Definition write_options {W} (o : CosmosStoreOptions) : M W () := λ m,
  (inr (), {| _store := _store m; options := o; heap := heap m;
              world := world m; trace := trace m |}).

Definition write_heap {W} (h : gmap ref Instance) : M W () := λ m,
  (inr (), {| _store := _store m; options := options m; heap := h;
              world := world m; trace := trace m |}).

(** Calling a callback. *)
Definition call {W} (callback : Callback) (args : list Arg) : M W () :=
  log (Called callback args).

(** [await] of an SDK call. *)
Definition await `{Cosmos.Platform W} (r : Cosmos.Request) : M W Cosmos.Response := λ m,
  let '(res, w') := Cosmos.perform r (world m) in
  (res, {| _store := _store m; options := options m; heap := heap m;
           world := w'; trace := trace m ++ [Sent r] |}).

(** A property read that throws when the receiver is undefined. *)
Definition defined {W A} (what : string) (o : option A) : M W A :=
  match o with
  | Some a => mret a
  | None => throw (Cosmos.TypeError what)
  end.

(** [this.database], [this.container]: the private fields of [this]. *)
Definition this_database {W} (this : ref) : M W (option Cosmos.Database) :=
  read (λ m, i ← heap m !! this; database i).

Definition this_container {W} (this : ref) : M W (option Cosmos.Container) :=
  read (λ m, i ← heap m !! this; container i).

Definition set_this_database {W} (this : ref) (d : option Cosmos.Database) : M W () :=
  h ← read heap;
  write_heap (alter (λ i, {| database := d; container := container i |}) this h).

Definition set_this_container {W} (this : ref) (c : option Cosmos.Container) : M W () :=
  h ← read heap;
  write_heap (alter (λ i, {| database := database i; container := c |}) this h).

#[global] Instance truthy_ref : Truthy ref := λ _, true.

Section Methods.
Context `{Cosmos.Platform W}.

(** [Number(new Date(v))] *)
Definition Number_new_Date (v : value) : number :=
  match v with
  | JDate t => t
  | _ => Cosmos.new_Date v
  end.

Definition Date_now : M W Z := read (λ m, Cosmos.Date_now (world m)).

(** The private constructor. *)
Definition constructor : M W ref :=
  s ← read _store;
  if truthy s then
    throw (Cosmos.JsError
      "Cosmos Store has already been initialized. Please use CosmosStore.initializeStore()")
  else
  o ← read options;
  if negb (truthy (cosmosClient o)) then
    throw (Cosmos.JsError
      "Cannot initialize Cosmos Store. Please use CosmosStore.initializeStore()")
  else
  h ← read heap;
  let this := fresh (dom h) in
  write_heap (<[this := {| database := None; container := None |}]> h);;
  mret this.

(** Update static options *)
Definition updateOptions (options : CosmosStoreOptions) : M W () :=
  write_options
    {| cosmosClient := cosmosClient options;
       containerName := Some (or_else (containerName options) DEFAULT_CONTAINER_NAME);
       databaseName := databaseName options;
       disableTouch := Some (or_else (disableTouch options) false);
       ttl := Some (or_else (ttl options) (TtlNumber DEFAULT_TTL)) |}.

Definition createContainer (this : ref) : M W () :=
  o ← read options;
  let containerName := containerName o in
  d ← this_database this;
  match d with
  | Some d =>
      await (Cosmos.containers_createIfNotExists d containerName (-1)
               PARTITION_KEY_PATH);;
      mret ()
  | None => mret ()
  end.

(** Initial Cosmos DB set-up *)
Definition setup (this : ref) : M W () :=
  o ← read options;
  let databaseName := databaseName o in
  let containerName := containerName o in
  cosmosClient ← defined "cosmosClient.databases" (cosmosClient o);
  r ← await (Cosmos.databases_createIfNotExists cosmosClient databaseName);
  set_this_database this (Cosmos.database r);;
  createContainer this;;
  d ← this_database this;
  d ← defined "this.database.container" d;
  set_this_container this (Some (Cosmos.Database_container d containerName)).

Definition initializeStore (options : CosmosStoreOptions) : M W (option ref) :=
  if negb (truthy (cosmosClient options)) then
    throw (Cosmos.JsError "Cosmos DB Client is required.")
  else
  if negb (truthy (databaseName options)) then
    throw (Cosmos.JsError "Database name is required")
  else
  s ← read _store;
  if truthy s then mret s else
  updateOptions options;;
  this ← constructor;
  write_store (Some this);;
  setup this;;
  read _store.

Definition reset : M W () :=
  write_store None;;
  write_options empty_options.

(** [session.cookie && session.cookie.expires] *)
Definition cookie_expires (session : SessionData) : option value :=
  cookie ← session !! "cookie";
  if truthy cookie then prop cookie "expires" else None.

(** Get Time to live value in seconds for the session. *)
Definition getTTL (session : SessionData) : M W (option number) :=
  o ← read options;
  match ttl o with
  | Some (TtlFunction f) => mret (Some (f session))
  | policy =>
      let fixed := match policy with Some (TtlNumber n) => Some n | _ => None end in
      match cookie_expires session with
      | Some expires =>
          if truthy expires then
            let sessionExpiry := Number_new_Date expires in
            current ← Date_now;
            mret (Some (Math_ceil_div (sub sessionExpiry (Num current)) 1000))
          else mret fixed
      | None => mret fixed
      end
  end.

(** Destroy a session. *)
Definition destroy (this : ref) (sid : string) (callback : option Callback) : M W () :=
  let callback := default noop callback in
  try_catch
    (c ← this_container this;
     c ← defined "this.container.item" c;
     await (Cosmos.item_delete c sid sid);;
     mret ())
    (λ error, call callback [ArgError error]).

(** [{ id: sid, ...session }] *)
Definition sessionItem (sid : string) (session : SessionData) : Doc :=
  session ∪ {[ "id" := JStr sid ]}.

(** Set the session data for the session ID *)
Definition set (this : ref) (sid : string) (session : SessionData)
    (callback : option Callback) : M W () :=
  let callback := default noop callback in
  currentTTL ← getTTL session;
  try_catch
    (let sessionItem := sessionItem sid session in
     let without_TTL : M W () :=
       c ← this_container this;
       c ← defined "this.container.items" c;
       await (Cosmos.items_create c sessionItem);;
       mret () in
     match currentTTL with
     | Some ttl =>
         if truthy ttl then
           if le0 ttl then destroy this sid None
           else
             c ← this_container this;
             c ← defined "this.container.items" c;
             await (Cosmos.items_upsert c (<["ttl" := JNum ttl]> sessionItem));;
             mret ()
         else without_TTL
     | None => without_TTL
     end)
    (λ error, call callback [ArgError error]).

(** Get the session data for the session ID *)
Definition get (this : ref) (sid : string) (callback : option Callback) : M W () :=
  let callback := default noop callback in
  try_catch
    (c ← this_container this;
     c ← defined "this.container.item" c;
     r ← await (Cosmos.item_read c sid sid);
     match Cosmos.resource r with
     | None => call callback [ArgNull; ArgNull]
     | Some resource => call callback [ArgNull; ArgValue (JObj resource)]
     end)
    (λ error, call callback [ArgError error]).

(** "Touches" a given session, resetting the idle timer. *)
Definition touch (this : ref) (sid : string) (session : SessionData)
    (callback : option Callback) : M W () :=
  let callback := default noop callback in
  o ← read options;
  if truthy (disableTouch o) then call callback [] else
  try_catch
    (c ← this_container this;
     c ← defined "this.container.item" c;
     v ← getTTL session;
     await (Cosmos.item_patch c sid sid
              [ {| Cosmos.op := Cosmos.replace; Cosmos.path := "/ttl";
                   Cosmos.value := JNum <$> v |} ]);;
     call callback [])
    (λ error, call callback []).

(** Get all sessions in the store *)
Definition all (this : ref) (callback : option Callback) : M W () :=
  let callback := default noop callback in
  try_catch
    (c ← this_container this;
     c ← defined "this.container.items" c;
     r ← await (Cosmos.items_readAll_fetchAll c);
     call callback
       [ArgNull; from_option (λ l, ArgValue (JArr l)) ArgUndefined (Cosmos.resources r)])
    (λ error, call callback [ArgError error]).

(** Returns the number of sessions in the store. *)
Definition length (this : ref) (callback : option Callback) : M W () :=
  let callback := default noop callback in
  try_catch
    (c ← this_container this;
     c ← defined "this.container.items" c;
     r ← await (Cosmos.items_query_fetchAll c
                  ("SELECT VALUE COUNT(s.id) FROM "
                   +:+ default "undefined" (Cosmos.id c) +:+ " s"));
     resources ← defined "resources is not iterable" (Cosmos.resources r);
     call callback [ArgNull; from_option ArgValue ArgUndefined (head resources)])
    (λ error, call callback [ArgError error]).

(** Delete all sessions from the store. *)
Definition clear (this : ref) (callback : option Callback) : M W () :=
  let callback := default noop callback in
  try_catch
    (o ← read options;
     let containerName := containerName o in
     d ← this_database this;
     match d with
     | Some d =>
         await (Cosmos.container_delete (Cosmos.Database_container d containerName));;
         mret ()
     | None => mret ()
     end;;
     createContainer this)
    (λ error, call callback [ArgError error]).

End Methods.

End CosmosStore.

(* ===================================================================== *)
(** ** A Cosmos account in memory *)
(* ===================================================================== *)

(** A reference implementation of the SDK calls, to run the store against:
    databases of containers of items, items found by id.  It generates no
    ids, understands the one query the store sends, sweeps no expired item,
    and fails on demand: every call consumes one entry of [faults]. *)
Module MemCosmos.

Record ContainerState := {
  defaultTtl : Z;
  partitionKey : string;
  items : gmap string Doc;
}.

Record Account := {
  databases : gmap string (gmap string ContainerState);
  faults : list (option Cosmos.Error);
  clock : Z;
}.

Definition with_databases (a : Account) (d : gmap string (gmap string ContainerState)) : Account :=
  {| databases := d; faults := faults a; clock := clock a |}.

Definition find (c : Cosmos.Container) (a : Account) : option ContainerState :=
  d ← Cosmos.db_id (Cosmos.c_database c);
  n ← Cosmos.id c;
  cs ← databases a !! d;
  cs !! n.

Definition with_items (c : Cosmos.Container) (f : gmap string Doc → gmap string Doc)
    (a : Account) : Account :=
  match Cosmos.db_id (Cosmos.c_database c), Cosmos.id c with
  | Some d, Some n =>
      with_databases a
        (alter (alter (λ s, {| defaultTtl := defaultTtl s;
                               partitionKey := partitionKey s;
                               items := f (items s) |}) n) d (databases a))
  | _, _ => a
  end.

(** A per-item [ttl] is a positive integer or -1. *)
Definition valid_ttl (d : Doc) : bool :=
  match d !! "ttl" with
  | None => true
  | Some (JNum (Num z)) => (0 <? z)%Z || (z =? -1)%Z
  | Some _ => false
  end.

Fixpoint has_slash (s : string) : bool :=
  match s with
  | EmptyString => false
  | String a s' => if Ascii.eqb a "/"%char then true else has_slash s'
  end.

(** The property a patch path names; only top-level paths, never [/id]. *)
Definition path_key (p : string) : option string :=
  match p with
  | String a k =>
      if Ascii.eqb a "/"%char && negb (has_slash k) && negb (String.eqb k "")
         && negb (String.eqb k "id")
      then Some k else None
  | EmptyString => None
  end.

Definition patch1 (o : Cosmos.PatchOperation) (d : Doc) : option Doc :=
  k ← path_key (Cosmos.path o);
  match Cosmos.op o with
  | Cosmos.replace =>
      _ ← d !! k; v ← Cosmos.value o; Some (<[k := v]> d)
  | Cosmos.add | Cosmos.set =>
      v ← Cosmos.value o; Some (<[k := v]> d)
  | Cosmos.remove =>
      _ ← d !! k; Some (delete k d)
  | Cosmos.incr =>
      match d !! k, Cosmos.value o with
      | Some (JNum (Num x)), Some (JNum (Num y)) => Some (<[k := JNum (Num (x + y))]> d)
      | _, _ => None
      end
  end.

Fixpoint patch (os : list Cosmos.PatchOperation) (d : Doc) : option Doc :=
  match os with
  | [] => Some d
  | o :: os' => d' ← patch1 o d; patch os' d'
  end.

Definition body_id (body : Doc) : option string :=
  match body !! "id" with
  | Some (JStr i) => if String.eqb i "" then None else Some i
  | _ => None
  end.

Definition ok (r : Cosmos.Response) (a : Account) : (Cosmos.Error + Cosmos.Response) * Account :=
  (inr r, a).

Definition fail (code : Z) (a : Account) : (Cosmos.Error + Cosmos.Response) * Account :=
  (inl (Cosmos.ErrorResponse code), a).

Definition serve (r : Cosmos.Request) (a : Account) : (Cosmos.Error + Cosmos.Response) * Account :=
  match r with
  | Cosmos.databases_createIfNotExists client id =>
      match id with
      | Some d =>
          let h := {| Cosmos.db_client := client; Cosmos.db_id := id |} in
          let r := {| Cosmos.resource := None; Cosmos.resources := None;
                      Cosmos.database := Some h |} in
          match databases a !! d with
          | Some _ => ok r a
          | None => ok r (with_databases a (<[d := ∅]> (databases a)))
          end
      | None => fail 400 a
      end
  | Cosmos.containers_createIfNotExists h id ttl pk =>
      match Cosmos.db_id h, id with
      | Some d, Some n =>
          match databases a !! d with
          | Some cs =>
              match cs !! n with
              | Some _ => ok Cosmos.no_content a
              | None =>
                  ok Cosmos.no_content
                    (with_databases a
                       (<[d := <[n := {| defaultTtl := ttl; partitionKey := pk;
                                         items := ∅ |}]> cs]> (databases a)))
              end
          | None => fail 404 a
          end
      | _, _ => fail 400 a
      end
  | Cosmos.container_delete c =>
      match find c a, Cosmos.db_id (Cosmos.c_database c), Cosmos.id c with
      | Some _, Some d, Some n =>
          ok Cosmos.no_content (with_databases a (alter (delete n) d (databases a)))
      | _, _, _ => fail 404 a
      end
  | Cosmos.item_read c id pk =>
      match find c a with
      | Some s =>
          if String.eqb id pk
          then ok {| Cosmos.resource := items s !! id; Cosmos.resources := None;
                     Cosmos.database := None |} a
          else ok Cosmos.no_content a
      | None => ok Cosmos.no_content a
      end
  | Cosmos.item_delete c id pk =>
      match find c a with
      | Some s =>
          match items s !! id with
          | Some _ =>
              if String.eqb id pk
              then ok Cosmos.no_content (with_items c (delete id) a)
              else fail 404 a
          | None => fail 404 a
          end
      | None => fail 404 a
      end
  | Cosmos.item_patch c id pk os =>
      match find c a with
      | Some s =>
          match items s !! id with
          | Some d =>
              if String.eqb id pk then
                match patch os d with
                | Some d' =>
                    if valid_ttl d'
                    then ok Cosmos.no_content (with_items c (<[id := d']>) a)
                    else fail 400 a
                | None => fail 400 a
                end
              else fail 404 a
          | None => fail 404 a
          end
      | None => fail 404 a
      end
  | Cosmos.items_upsert c body =>
      match find c a with
      | Some s =>
          match body_id body with
          | Some i =>
              if valid_ttl body
              then ok Cosmos.no_content (with_items c (<[i := body]>) a)
              else fail 400 a
          | None => fail 400 a
          end
      | None => fail 404 a
      end
  | Cosmos.items_create c body =>
      match find c a with
      | Some s =>
          match body_id body with
          | Some i =>
              match items s !! i with
              | Some _ => fail 409 a
              | None =>
                  if valid_ttl body
                  then ok Cosmos.no_content (with_items c (<[i := body]>) a)
                  else fail 400 a
              end
          | None => fail 400 a
          end
      | None => fail 404 a
      end
  | Cosmos.items_readAll_fetchAll c =>
      match find c a with
      | Some s =>
          ok {| Cosmos.resource := None;
                Cosmos.resources := Some (JObj <$> (map_to_list (items s)).*2);
                Cosmos.database := None |} a
      | None => fail 404 a
      end
  | Cosmos.items_query_fetchAll c query =>
      match find c a with
      | Some s =>
          if String.eqb query
               ("SELECT VALUE COUNT(s.id) FROM " +:+ default "undefined" (Cosmos.id c)
                +:+ " s")
          then ok {| Cosmos.resource := None;
                     Cosmos.resources := Some [JNum (Num (Z.of_nat (size (items s))))];
                     Cosmos.database := None |} a
          else fail 400 a
      | None => fail 404 a
      end
  end.

Definition perform (r : Cosmos.Request) (a : Account) : (Cosmos.Error + Cosmos.Response) * Account :=
  match faults a with
  | Some e :: rest =>
      (inl e, {| databases := databases a; faults := rest; clock := clock a |})
  | None :: rest =>
      serve r {| databases := databases a; faults := rest; clock := clock a |}
  | [] => serve r a
  end.

Definition new_Date (v : value) : number :=
  match v with
  | JNum (Num z) => Num z
  | _ => NaN
  end.

#[global] Instance platform : Cosmos.Platform Account :=
  {| Cosmos.perform := perform; Cosmos.Date_now := clock; Cosmos.new_Date := new_Date |}.

Definition empty_account (now : Z) : Account :=
  {| databases := ∅; faults := []; clock := now |}.

End MemCosmos.

(* ===================================================================== *)
(** ** Vocabulary of the statements *)
(* ===================================================================== *)

Import CosmosStore.

Section Observations.
Context `{Cosmos.Platform W}.

(** What [getTTL] returns from its last line: the fixed number of the
    configuration, undefined when there is none. *)
Definition fixed_ttl (o : CosmosStoreOptions) : option number :=
  match ttl o with
  | Some (TtlNumber n) => Some n
  | _ => None
  end.

(** [typeof t === 'function'] *)
Definition is_function (t : option TTL) : bool :=
  match t with
  | Some (TtlFunction _) => true
  | _ => false
  end.

(** Options that pass the two checks at the top of [initializeStore]. *)
Definition valid (o : CosmosStoreOptions) : bool :=
  truthy (cosmosClient o) && truthy (databaseName o).

Definition validation_error (o : CosmosStoreOptions) : Cosmos.Error :=
  if truthy (cosmosClient o)
  then Cosmos.JsError "Database name is required"
  else Cosmos.JsError "Cosmos DB Client is required.".

(** The requests, and the callback calls, among some events. *)
Definition requests_of (evs : list Event) : list Cosmos.Request :=
  omap (λ e, match e with Sent r => Some r | Called _ _ => None end) evs.

Definition calls_of (evs : list Event) : list (Callback * list Arg) :=
  omap (λ e, match e with Called c args => Some (c, args) | Sent _ => None end) evs.

(** The documents a request asks the container to write. *)
Definition written (r : Cosmos.Request) : option Doc :=
  match r with
  | Cosmos.items_upsert _ body | Cosmos.items_create _ body => Some body
  | _ => None
  end.

(** [this.container], as a method finds it. *)
Definition container_of (m : Machine W) (this : ref) : option Cosmos.Container :=
  i ← heap m !! this; container i.

(** The state after some events were observed and the world moved on. *)
Definition observed (m : Machine W) (w : W) (evs : list Event) : Machine W :=
  {| _store := _store m; options := options m; heap := heap m; world := w;
     trace := trace m ++ evs |}.

(** The events between two states. *)
Definition since (m m' : Machine W) : list Event :=
  drop (List.length (trace m)) (trace m').

(** What [try { await r } catch (error) { callback(error) }] comes to. *)
Definition attempt (r : Cosmos.Request) (callback : Callback) (m : Machine W)
    : (Cosmos.Error + ()) * Machine W :=
  match Cosmos.perform r (world m) with
  | (inr _, w') => (inr (), observed m w' [Sent r])
  | (inl e, w') => (inr (), observed m w' [Sent r; Called callback [ArgError e]])
  end.

(** Several [initializeStore] calls in a row, with their results. *)
Fixpoint initializeStore_each (os : list CosmosStoreOptions) (m : Machine W)
    : list (Cosmos.Error + option ref) * Machine W :=
  match os with
  | [] => ([], m)
  | o :: os' =>
      let '(r, m') := initializeStore o m in
      let '(rs, m'') := initializeStore_each os' m' in
      (r :: rs, m'')
  end.

(** What a program can do with the class: the two static methods, a direct
    [new CosmosStore()], and the methods of an instance it holds. *)
Inductive Call :=
| call_initializeStore (options : CosmosStoreOptions)
| call_new
| call_reset
| call_get (this : ref) (sid : string) (callback : option Callback)
| call_set (this : ref) (sid : string) (session : SessionData) (callback : option Callback)
| call_destroy (this : ref) (sid : string) (callback : option Callback)
| call_touch (this : ref) (sid : string) (session : SessionData) (callback : option Callback)
| call_all (this : ref) (callback : option Callback)
| call_length (this : ref) (callback : option Callback)
| call_clear (this : ref) (callback : option Callback).

Definition exec (c : Call) (m : Machine W) : Machine W :=
  match c with
  | call_initializeStore o => snd (initializeStore o m)
  | call_new => snd (constructor m)
  | call_reset => snd (reset m)
  | call_get this sid cb => snd (get this sid cb m)
  | call_set this sid session cb => snd (set this sid session cb m)
  | call_destroy this sid cb => snd (destroy this sid cb m)
  | call_touch this sid session cb => snd (touch this sid session cb m)
  | call_all this cb => snd (all this cb m)
  | call_length this cb => snd (length this cb m)
  | call_clear this cb => snd (clear this cb m)
  end.

Definition run (cs : list Call) (m : Machine W) : Machine W :=
  foldl (λ m c, exec c m) m cs.

Definition is_reset (c : Call) : bool :=
  match c with call_reset => true | _ => false end.

Definition resets (cs : list Call) : nat :=
  List.length (List.filter is_reset cs).

(** What a computation may not touch: the static fields and the set of
    instances. *)
Definition shape (m : Machine W) : option ref * CosmosStoreOptions * gset ref :=
  (_store m, options m, dom (heap m)).

Definition quiet {A} (c : M W A) : Prop :=
  ∀ m, shape (snd (c m)) = shape m.

(** The invariant of the two static fields, with a count of the instances:
    [k] is the number of resets so far. *)
Definition singleton_inv (k : nat) (m : Machine W) : Prop :=
  (_store m = None → cosmosClient (options m) = None) ∧
  size (heap m) + (match _store m with Some _ => 0 | None => 1 end) ≤ k + 1.

End Observations.

(** What the account holds. *)
Section Stored.
Import MemCosmos.

(** The names a container handle stands for. *)
Definition names (c : Cosmos.Container) : option string * option string :=
  (Cosmos.db_id (Cosmos.c_database c), Cosmos.id c).

(** The item stored under an id. *)
Definition stored (a : Account) (c : Cosmos.Container) (i : string) : option Doc :=
  s ← find c a; items s !! i.

End Stored.

(* ===================================================================== *)
(** ** A scenario *)
(* ===================================================================== *)

(** An empty account, at 1000000 ms after the epoch; a store initialized
    on it with a client and a database name only; a few session records. *)
Module Scenario.

Definition client : Cosmos.CosmosClient := {| Cosmos.endpoint := "localhost" |}.

Definition defaultOptions : CosmosStoreOptions :=
  {| cosmosClient := Some client; databaseName := Some "database";
     containerName := None; ttl := None; disableTouch := None |}.

Definition with_ttl (t : TTL) : CosmosStoreOptions :=
  {| cosmosClient := Some client; databaseName := Some "database";
     containerName := None; ttl := Some t; disableTouch := None |}.

Definition no_touch : CosmosStoreOptions :=
  {| cosmosClient := Some client; databaseName := Some "database";
     containerName := None; ttl := None; disableTouch := Some true |}.

Definition no_database_name : CosmosStoreOptions :=
  {| cosmosClient := Some client; databaseName := Some "";
     containerName := None; ttl := None; disableTouch := None |}.

(** Options with a [ttl] of 0 and an empty container name. *)
Definition falsy : CosmosStoreOptions :=
  {| cosmosClient := Some client; databaseName := Some "database";
     containerName := Some ""; ttl := Some (TtlNumber (Num 0));
     disableTouch := None |}.

(** The custom TTL of the tests. *)
Definition five : SessionData → number := λ _, Num 5.

Definition sessions : Cosmos.Container :=
  {| Cosmos.c_database := {| Cosmos.db_client := client; Cosmos.db_id := Some "database" |};
     Cosmos.id := Some "sessions" |}.

Definition uninitialized : Machine MemCosmos.Account :=
  initial (MemCosmos.empty_account 1000000).

Definition ready : Machine MemCosmos.Account :=
  snd (initializeStore defaultOptions uninitialized).

Definition ready_with (o : CosmosStoreOptions) : Machine MemCosmos.Account :=
  snd (initializeStore o uninitialized).

(** A cookie that expires at the given time, and a record with it. *)
Definition cookie_expiring (at_ms : Z) : gmap string value :=
  {[ "originalMaxAge" := JNum (Num 60000);
     "expires" := JDate (Num at_ms);
     "path" := JStr "/" ]}.

Definition expiring (at_ms : Z) : SessionData :=
  {[ "cookie" := JObj (cookie_expiring at_ms); "user" := JStr "ann" ]}.

(** A record whose cookie has no expiry. *)
Definition unexpiring : SessionData :=
  {[ "cookie" := JObj {[ "originalMaxAge" := JNull; "path" := JStr "/" ]};
     "user" := JStr "ann" ]}.

(** A record with an [id] of its own. *)
Definition with_own_id : SessionData :=
  <["id" := JStr "own"]> unexpiring.

End Scenario.

(* ===================================================================== *)
(** ** More vocabulary *)
(* ===================================================================== *)

(** The calls that are methods of an instance. *)
Definition is_method (c : Call) : bool :=
  match c with
  | call_initializeStore _ | call_new | call_reset => false
  | _ => true
  end.

(** [this.database], as a method finds it. *)
Definition database_of `{Cosmos.Platform W} (m : Machine W) (this : ref)
    : option Cosmos.Database :=
  i ← heap m !! this; database i.

(** More of the scenario: an account that is unreachable at first, the
    store whose initialization failed on it, a record with an invalid
    expiry, and the ready store holding one session. *)
Module Cases.

Definition unreachable : Machine MemCosmos.Account :=
  initial {| MemCosmos.databases := ∅;
             MemCosmos.faults := [Some (Cosmos.ErrorResponse 503)];
             MemCosmos.clock := 1000000 |}.

Definition broken : Machine MemCosmos.Account :=
  snd (initializeStore Scenario.defaultOptions unreachable).

Definition invalid_cookie : gmap string value :=
  {[ "expires" := JDate NaN; "path" := JStr "/" ]}.

Definition invalid_date : SessionData :=
  {[ "cookie" := JObj invalid_cookie; "user" := JStr "ann" ]}.

Definition holding : Machine MemCosmos.Account :=
  snd (set 0 "s1" Scenario.unexpiring None Scenario.ready).

Definition held : Doc :=
  <["ttl" := JNum (Num 86400)]> (sessionItem "s1" Scenario.unexpiring).

Definition empty_container : MemCosmos.ContainerState :=
  {| MemCosmos.defaultTtl := -1; MemCosmos.partitionKey := "/id";
     MemCosmos.items := ∅ |}.

End Cases.

(* ===================================================================== *)
(** ** Properties *)
(* ===================================================================== *)

(** Unfolds the monad, so that a computation reduces on a given state. *)
Ltac unfold_M :=
  unfold call, defined, await in *;
  unfold mbind, M_bind, mret, M_ret, throw, try_catch, read, log,
    write_store, write_options, write_heap in *.

(** *** The ceiling of a quotient *)

Lemma ceil_div_bounds (x k : Z) :
  (0 < k)%Z → (k * (- ((- x) / k) - 1) < x ≤ k * - ((- x) / k))%Z.
Proof.
  intros Hk.
  pose proof (Z.div_mod (- x) k ltac:(lia)) as Hdm.
  pose proof (Z.mod_pos_bound (- x) k Hk) as Hb.
  lia.
Qed.

Lemma ceil_div_unique (x k q : Z) :
  (0 < k)%Z → (k * (q - 1) < x ≤ k * q)%Z → (- ((- x) / k))%Z = q.
Proof.
  intros Hk Hq. pose proof (ceil_div_bounds x k Hk) as Hc. nia.
Qed.

(** *** The TTL resolver *)

Section TTL.
Context `{Cosmos.Platform W}.
Implicit Types (m : Machine W) (session : SessionData).

Lemma getTTL_function m session f :
  ttl (options m) = Some (TtlFunction f) →
  getTTL session m = (inr (Some (f session)), m).
Proof. intros Hf. unfold getTTL. unfold_M. by rewrite Hf. Qed.

Lemma getTTL_expires m session expires :
  is_function (ttl (options m)) = false →
  cookie_expires session = Some expires →
  truthy expires = true →
  getTTL session m =
    (inr (Some (Math_ceil_div
                  (sub (Number_new_Date expires) (Num (Cosmos.Date_now (world m))))
                  1000)), m).
Proof.
  intros Hf He Ht. unfold getTTL, CosmosStore.Date_now. unfold_M.
  rewrite He, Ht.
  destruct (ttl (options m)) as [[n|f]|]; simpl in *; done.
Qed.

Lemma getTTL_fixed m session :
  is_function (ttl (options m)) = false →
  truthy (cookie_expires session) = false →
  getTTL session m = (inr (fixed_ttl (options m)), m).
Proof.
  intros Hf He. unfold getTTL, fixed_ttl. unfold_M.
  destruct (cookie_expires session) as [e|];
    [change (truthy e = false) in He; rewrite He|];
    destruct (ttl (options m)) as [[n|f]|]; simpl in *; done.
Qed.

(** [getTTL] reads the state and leaves it as it is. *)
Lemma getTTL_pure m session : ∃ v, getTTL session m = (inr v, m).
Proof.
  destruct (is_function (ttl (options m))) eqn:Hf.
  - destruct (ttl (options m)) as [[n|f]|] eqn:Ht; try done.
    eexists. by apply getTTL_function.
  - destruct (cookie_expires session) as [e|] eqn:He.
    + destruct (truthy e) eqn:Hte.
      * eexists. by eapply getTTL_expires.
      * eexists. apply getTTL_fixed; [done|]. by rewrite He.
    + eexists. apply getTTL_fixed; [done|]. by rewrite He.
Qed.

Lemma updateOptions_options m (o : CosmosStoreOptions) :
  options (snd (updateOptions o m)) =
    {| cosmosClient := cosmosClient o;
       containerName := Some (or_else (containerName o) DEFAULT_CONTAINER_NAME);
       databaseName := databaseName o;
       disableTouch := Some (or_else (disableTouch o) false);
       ttl := Some (or_else (ttl o) (TtlNumber DEFAULT_TTL)) |}.
Proof. reflexivity. Qed.

(** C1. The TTL resolver has three tiers, in this order: a function
    policy is called on the record and its result is returned as it is,
    whatever the record's [cookie.expires]; without a function policy, a
    record with a [cookie.expires] gets the value derived from that expiry;
    otherwise the fixed number of the configuration is returned, which is
    86400 when the options gave none. *)
Theorem getTTL_precedence m session :
  (∀ f, ttl (options m) = Some (TtlFunction f) →
     getTTL session m = (inr (Some (f session)), m)) ∧
  (∀ expires,
     is_function (ttl (options m)) = false →
     cookie_expires session = Some expires →
     truthy expires = true →
     getTTL session m =
       (inr (Some (Math_ceil_div
                     (sub (Number_new_Date expires) (Num (Cosmos.Date_now (world m))))
                     1000)), m)) ∧
  (is_function (ttl (options m)) = false →
   truthy (cookie_expires session) = false →
   getTTL session m = (inr (fixed_ttl (options m)), m)) ∧
  (∀ o, ttl o = None →
     fixed_ttl (options (snd (updateOptions o m))) = Some (Num 86400)).
Proof.
  split_and!.
  - intros f. apply getTTL_function.
  - intros expires. apply getTTL_expires.
  - apply getTTL_fixed.
  - intros o Ho. rewrite updateOptions_options. unfold fixed_ttl. simpl.
    by rewrite Ho.
Qed.

(** C5. With a policy that is not a function, a record whose
    [cookie.expires] is a date gets the ceiling of (expires - now) / 1000,
    both in epoch milliseconds: the integer [q] with
    1000 (q - 1) < expires - now <= 1000 q.  It is zero or negative exactly
    when the expiry is not in the future. *)
Theorem getTTL_expires_ceiling m session (cookie : gmap string value) (t : number) :
  is_function (ttl (options m)) = false →
  session !! "cookie" = Some (JObj cookie) →
  cookie !! "expires" = Some (JDate t) →
  let now := Cosmos.Date_now (world m) in
  getTTL session m = (inr (Some (Math_ceil_div (sub t (Num now)) 1000)), m) ∧
  ∀ e, t = Num e →
    ∃ q, Math_ceil_div (sub t (Num now)) 1000 = Num q ∧
         (1000 * (q - 1) < e - now ≤ 1000 * q)%Z ∧
         ((q ≤ 0)%Z ↔ (e ≤ now)%Z) ∧
         (q = 0%Z ↔ (now - 1000 < e ≤ now)%Z).
Proof.
  intros Hf Hc He now. split.
  - rewrite (getTTL_expires m session (JDate t)); [done|done| |done].
    unfold cookie_expires. rewrite Hc. simpl. done.
  - intros e ->. simpl. eexists. split; [reflexivity|].
    pose proof (ceil_div_bounds (e - now) 1000 ltac:(lia)). lia.
Qed.

End TTL.

(** *** What the methods leave alone *)

Section Quiet.
Context `{Cosmos.Platform W}.
Implicit Types (m : Machine W).

Lemma quiet_ret {A} (a : A) : quiet (mret a : M W A).
Proof. by intros m. Qed.

Lemma quiet_throw {A} e : quiet (throw e : M W A).
Proof. by intros m. Qed.

Lemma quiet_read {A} (f : Machine W → A) : quiet (read f).
Proof. by intros m. Qed.

Lemma quiet_call c args : quiet (call c args : M W ()).
Proof. by intros m. Qed.

Lemma quiet_await r : quiet (await r).
Proof. intros m. unfold await. by destruct (Cosmos.perform r (world m)). Qed.

Lemma quiet_defined {A} what (o : option A) : quiet (defined what o : M W A).
Proof. by destruct o. Qed.

Lemma quiet_bind {A B} (c : M W A) (k : A → M W B) :
  quiet c → (∀ a, quiet (k a)) → quiet (c ≫= k).
Proof.
  intros Hc Hk m. unfold mbind, M_bind. specialize (Hc m).
  destruct (c m) as [[e|a] m']; simpl in *; [done|].
  by rewrite Hk.
Qed.

Lemma quiet_try_catch {A} (c : M W A) (h : Cosmos.Error → M W A) :
  quiet c → (∀ e, quiet (h e)) → quiet (try_catch c h).
Proof.
  intros Hc Hh m. unfold try_catch. specialize (Hc m).
  destruct (c m) as [[e|a] m']; simpl in *; [|done].
  by rewrite Hh.
Qed.

Lemma quiet_set_this_database this d : quiet (set_this_database this d : M W ()).
Proof. intros m. unfold shape. simpl. by rewrite dom_alter_L. Qed.

Lemma quiet_set_this_container this c : quiet (set_this_container this c : M W ()).
Proof. intros m. unfold shape. simpl. by rewrite dom_alter_L. Qed.

Create HintDb quiet discriminated.
#[local] Hint Resolve quiet_ret quiet_throw quiet_read quiet_call quiet_await
  quiet_defined quiet_set_this_database quiet_set_this_container : quiet.
#[local] Hint Extern 2 (quiet (_ ≫= _)) => apply quiet_bind; [|intros ?] : quiet.
#[local] Hint Extern 2 (quiet (try_catch _ _)) =>
  apply quiet_try_catch; [|intros ?] : quiet.
#[local] Hint Extern 3 (quiet (match ?x with _ => _ end)) => destruct x : quiet.

Ltac solve_quiet := auto 30 with quiet.

Lemma quiet_createContainer this : quiet (createContainer this).
Proof. unfold createContainer, this_database. solve_quiet. Qed.

Lemma quiet_setup this : quiet (setup this).
Proof.
  pose proof quiet_createContainer.
  unfold setup, this_database. solve_quiet.
Qed.

Lemma quiet_getTTL session : quiet (getTTL session).
Proof. intros m. destruct (getTTL_pure m session) as [v ->]. done. Qed.

Lemma quiet_destroy this sid cb : quiet (destroy this sid cb).
Proof. unfold destroy, this_container. solve_quiet. Qed.

Lemma quiet_set this sid session cb : quiet (set this sid session cb).
Proof.
  pose proof quiet_getTTL. pose proof quiet_destroy.
  unfold set, this_container. solve_quiet.
Qed.

Lemma quiet_get this sid cb : quiet (get this sid cb).
Proof. unfold get, this_container. solve_quiet. Qed.

Lemma quiet_touch this sid session cb : quiet (touch this sid session cb).
Proof.
  pose proof quiet_getTTL.
  unfold touch, this_container. solve_quiet.
Qed.

Lemma quiet_all this cb : quiet (all this cb).
Proof. unfold all, this_container. solve_quiet. Qed.

Lemma quiet_length this cb : quiet (length this cb).
Proof. unfold length, this_container. solve_quiet. Qed.

Lemma quiet_clear this cb : quiet (clear this cb).
Proof.
  pose proof quiet_createContainer.
  unfold clear, this_database. solve_quiet.
Qed.

End Quiet.

(** *** The singleton *)

Section Lifecycle.
Context `{Cosmos.Platform W}.
Implicit Types (m : Machine W) (o : CosmosStoreOptions).

Lemma valid_checks o :
  valid o = true ↔
  truthy (cosmosClient o) = true ∧ truthy (databaseName o) = true.
Proof. unfold valid. by rewrite andb_true_iff. Qed.

Lemma initializeStore_invalid m o :
  valid o = false → initializeStore o m = (inl (validation_error o), m).
Proof.
  unfold valid, validation_error, initializeStore. unfold_M. intros Hv.
  destruct (truthy (cosmosClient o)); simpl in *; [|done].
  by rewrite Hv.
Qed.

Lemma initializeStore_again m o this :
  valid o = true → _store m = Some this →
  initializeStore o m = (inr (Some this), m).
Proof.
  intros [Hc Hd]%valid_checks Hs. unfold initializeStore. unfold_M.
  rewrite Hc, Hd. simpl. by rewrite Hs.
Qed.

Lemma constructor_fresh m :
  _store m = None → truthy (cosmosClient (options m)) = true →
  constructor m =
    (inr (fresh (dom (heap m))),
     {| _store := _store m; options := options m;
        heap := <[fresh (dom (heap m)) := {| database := None; container := None |}]>
                  (heap m);
        world := world m; trace := trace m |}).
Proof.
  intros Hs Hc. unfold constructor. unfold_M. rewrite Hs. simpl.
  rewrite Hc. simpl. by rewrite Hs.
Qed.

(** The first call that passes validation: the options are captured, an
    instance is constructed and registered, and then provisioning runs,
    which may fail. *)
Lemma initializeStore_first m o :
  valid o = true → _store m = None →
  let this := fresh (dom (heap m)) in
  let '(r, m') := initializeStore o m in
  _store m' = Some this ∧
  options m' = options (snd (updateOptions o m)) ∧
  dom (heap m') = {[this]} ∪ dom (heap m) ∧
  (∀ v, r = inr v → v = Some this).
Proof.
  intros [Hc Hd]%valid_checks Hs this.
  unfold initializeStore. unfold_M. rewrite Hc, Hd. simpl. rewrite Hs. simpl.
  rewrite constructor_fresh by done. simpl.
  match goal with |- context [setup ?t ?m0] =>
    pose proof (quiet_setup t m0) as Hq; destruct (setup t m0) as [[e|[]] m']
  end; unfold shape in Hq; simpl in *; simplify_eq.
  - rewrite dom_insert_L in *. done.
  - rewrite dom_insert_L in *. split_and!; try done. by intros v [= <-].
Qed.

Lemma initializeStore_success m o r m1 :
  initializeStore o m = (inr r, m1) → is_Some r ∧ _store m1 = r.
Proof.
  intros Hi. destruct (valid o) eqn:Hv.
  - destruct (_store m) as [this|] eqn:Hs.
    + rewrite (initializeStore_again m o this) in Hi by done.
      simplify_eq. eauto.
    + pose proof (initializeStore_first m o Hv Hs) as Hf. rewrite Hi in Hf.
      destruct Hf as (Hs' & _ & _ & Hr). rewrite (Hr r eq_refl). eauto.
  - rewrite initializeStore_invalid in Hi by done. done.
Qed.

Lemma initializeStore_each_registered m this os :
  _store m = Some this →
  initializeStore_each os m =
    ((λ o, if valid o then inr (Some this) else inl (validation_error o)) <$> os, m).
Proof.
  intros Hs. induction os as [|o os IH]; simpl; [done|].
  destruct (valid o) eqn:Hv.
  - rewrite (initializeStore_again m o this) by done. by rewrite IH.
  - rewrite initializeStore_invalid by done. by rewrite IH.
Qed.

(** C3, amended.  After a successful [initializeStore], every further
    call whose options pass validation returns the same instance and leaves
    the whole state as it is, whatever else its options say; a call whose
    options fail validation is refused with the validation error, and
    changes nothing either. *)
Theorem initializeStore_idempotent m o r m1 (os : list CosmosStoreOptions) :
  initializeStore o m = (inr r, m1) →
  is_Some r ∧
  initializeStore_each os m1 =
    ((λ o', if valid o' then inr r else inl (validation_error o')) <$> os, m1).
Proof.
  intros [[this ->] Hs]%initializeStore_success. split; [eauto|].
  by apply initializeStore_each_registered.
Qed.

(** The constructor, on any state. *)
Lemma constructor_registered m this :
  _store m = Some this →
  constructor m =
    (inl (Cosmos.JsError
       "Cosmos Store has already been initialized. Please use CosmosStore.initializeStore()"),
     m).
Proof. intros Hs. unfold constructor. unfold_M. by rewrite Hs. Qed.

Lemma constructor_unconfigured m :
  _store m = None → cosmosClient (options m) = None →
  constructor m =
    (inl (Cosmos.JsError
       "Cannot initialize Cosmos Store. Please use CosmosStore.initializeStore()"),
     m).
Proof.
  intros Hs Hc. unfold constructor. unfold_M. rewrite Hs. simpl.
  by rewrite Hc.
Qed.

Lemma constructor_guarded m :
  is_Some (_store m) ∨ cosmosClient (options m) = None →
  ∃ e, constructor m = (inl e, m).
Proof.
  intros Hg. destruct (_store m) as [this|] eqn:Hs.
  - eexists. by eapply constructor_registered.
  - destruct Hg as [[? [=]]|Hc]. eexists. by apply constructor_unconfigured.
Qed.

Lemma singleton_inv_quiet {A} (c : M W A) k m :
  quiet c → singleton_inv k m → singleton_inv k (snd (c m)).
Proof.
  intros Hq [HI Hn]. specialize (Hq m). unfold shape in Hq.
  injection Hq as Hs Ho Hd. unfold singleton_inv.
  rewrite Hs, Ho, <-size_dom, Hd, size_dom. done.
Qed.

Lemma singleton_inv_exec c k m :
  singleton_inv k m →
  singleton_inv (k + (if is_reset c then 1 else 0)) (exec c m).
Proof.
  intros Hinv.
  destruct c as [o| | |this sid cb|this sid s cb|this sid cb|this sid s cb
                |this cb|this cb|this cb]; simpl;
    rewrite ?Nat.add_0_r;
    try (apply singleton_inv_quiet; [|done];
         auto using quiet_get, quiet_set, quiet_destroy, quiet_touch,
           quiet_all, quiet_length, quiet_clear; fail).
  - destruct (valid o) eqn:Hv; [|by rewrite initializeStore_invalid].
    destruct (_store m) as [this|] eqn:Hs;
      [by rewrite (initializeStore_again m o this)|].
    pose proof (initializeStore_first m o Hv Hs) as Hf.
    destruct (initializeStore o m) as [r m']. simpl.
    destruct Hf as (Hs' & _ & Hd & _). destruct Hinv as [_ Hn].
    rewrite Hs in Hn. split; [by rewrite Hs'|]. rewrite Hs'.
    rewrite <-size_dom, Hd, size_union, size_singleton, size_dom;
      [lia|]. apply disjoint_singleton_l, is_fresh.
  - destruct (constructor_guarded m) as [e ->]; [|done].
    destruct Hinv as [HI _]. destruct (_store m); eauto.
  - destruct Hinv as [_ Hn]. split; [done|]. simpl.
    destruct (_store m); lia.
Qed.

Lemma singleton_inv_run cs k m :
  singleton_inv k m → singleton_inv (k + resets cs) (run cs m).
Proof.
  revert k m. induction cs as [|c cs IH]; intros k m Hinv; simpl.
  - by rewrite Nat.add_0_r.
  - apply (singleton_inv_exec c) in Hinv. apply IH in Hinv.
    unfold resets in *. simpl.
    destruct (is_reset c); simpl in *;
      [by replace (k + S (List.length (List.filter is_reset cs)))
            with (k + 1 + List.length (List.filter is_reset cs)) by lia|].
    by rewrite Nat.add_0_r in Hinv.
Qed.

Lemma singleton_inv_initial (w : W) : singleton_inv 0 (initial w).
Proof. split; [done|]. simpl. rewrite map_size_empty. lia. Qed.

(** C4, amended.  The constructor throws on every state where an
    instance is registered or no client has been captured.  Every state a
    program can reach through the class is such a state, so
    [new CosmosStore()] never yields an instance; instances come from
    [initializeStore] only: at most one is registered at a time, at most
    one exists as long as [reset] is not called, and at most one more for
    each [reset]. *)
Theorem constructor_never_public :
  (∀ m, is_Some (_store m) ∨ cosmosClient (options m) = None →
     ∃ e, constructor m = (inl e, m)) ∧
  (∀ (w : W) cs, ∃ e,
     constructor (run cs (initial w)) = (inl e, run cs (initial w))) ∧
  (∀ (w : W) cs, size (heap (run cs (initial w))) ≤ resets cs + 1).
Proof.
  split_and!.
  - apply constructor_guarded.
  - intros w cs.
    destruct (singleton_inv_run cs 0 _ (singleton_inv_initial w)) as [HI _].
    apply constructor_guarded. destruct (_store (run cs (initial w))); eauto.
  - intros w cs.
    destruct (singleton_inv_run cs 0 _ (singleton_inv_initial w)) as [_ Hn].
    simpl in Hn. lia.
Qed.

(** C10.  [updateOptions] replaces a falsy option by its default: a [ttl]
    of 0 becomes 86400, so that the configured number is never 0, and an
    empty [containerName] becomes ["sessions"].  This is the configuration
    an [initializeStore] call that captures its options leaves behind. *)
Theorem updateOptions_falsy_defaults m o :
  (ttl o = Some (TtlNumber (Num 0)) →
     ttl (options (snd (updateOptions o m))) = Some (TtlNumber (Num 86400))) ∧
  ttl (options (snd (updateOptions o m))) ≠ Some (TtlNumber (Num 0)) ∧
  (containerName o = Some "" →
     containerName (options (snd (updateOptions o m))) = Some "sessions") ∧
  (valid o = true → _store m = None →
     options (snd (initializeStore o m)) = options (snd (updateOptions o m))).
Proof.
  rewrite updateOptions_options. simpl. split_and!.
  - by intros ->.
  - destruct (ttl o) as [[[z|]|f]|]; simpl; try done.
    unfold truthy, truthy_TTL, truthy, truthy_number.
    destruct (z =? 0)%Z eqn:Hz; simpl; [done|].
    intros [= ->]. done.
  - by intros ->.
  - intros Hv Hs. pose proof (initializeStore_first m o Hv Hs) as Hf.
    destruct (initializeStore o m) as [r m']. destruct Hf as (_ & Ho & _).
    simpl. by rewrite Ho.
Qed.

End Lifecycle.

(** *** The session operations *)

Section Operations.
Context `{Cosmos.Platform W}.
Implicit Types (m : Machine W) (session : SessionData) (cb : option Callback).

Lemma since_observed m w evs : since m (observed m w evs) = evs.
Proof. unfold since, observed. simpl. by rewrite drop_app_length. Qed.

Lemma observed_observed m w evs w' evs' :
  observed (observed m w evs) w' evs' = observed m w' (evs ++ evs').
Proof. unfold observed. simpl. by rewrite app_assoc. Qed.

Lemma destroy_attempt m this sid cb c :
  container_of m this = Some c →
  destroy this sid cb m = attempt (Cosmos.item_delete c sid sid) (default noop cb) m.
Proof.
  unfold container_of. intros Hc.
  unfold destroy, this_container, attempt, observed. unfold_M. simpl.
  rewrite Hc. simpl.
  destruct (Cosmos.perform _ (world m)) as [[e|r] w']; simpl; [|done].
  by rewrite <-app_assoc.
Qed.

Lemma destroy_no_container m this sid cb :
  container_of m this = None →
  destroy this sid cb m =
    (inr (), observed m (world m)
               [Called (default noop cb) [ArgError (Cosmos.TypeError "this.container.item")]]).
Proof.
  unfold container_of. intros Hc.
  unfold destroy, this_container, observed. unfold_M. simpl.
  by rewrite Hc.
Qed.

(** The callback of [destroy] is called when the delete fails, with the
    error, and is not called when the delete succeeds. *)
Lemma destroy_calls m this sid cb c :
  container_of m this = Some c →
  calls_of (since m (snd (destroy this sid cb m))) =
    match fst (Cosmos.perform (Cosmos.item_delete c sid sid) (world m)) with
    | inl e => [(default noop cb, [ArgError e])]
    | inr _ => []
    end.
Proof.
  intros Hc. rewrite (destroy_attempt m this sid cb c) by done. unfold attempt.
  destruct (Cosmos.perform _ (world m)) as [[e|r] w']; simpl;
    by rewrite since_observed.
Qed.

Lemma destroy_resolves m this sid cb : fst (destroy this sid cb m) = inr ().
Proof.
  destruct (container_of m this) as [c|] eqn:Hc.
  - rewrite (destroy_attempt m this sid cb c) by done. unfold attempt.
    by destruct (Cosmos.perform _ (world m)) as [[e|r] w'].
  - by rewrite destroy_no_container.
Qed.

Lemma positive_truthy (n : number) :
  positive n = true → truthy n = true ∧ le0 n = false.
Proof.
  destruct n as [z|]; simpl; [|done]. unfold truthy, truthy_number.
  intros Hz%Z.ltb_lt. split; [apply negb_true_iff, Z.eqb_neq|apply Z.leb_gt]; lia.
Qed.

Lemma set_expired m this sid session cb n :
  getTTL session m = (inr (Some n), m) →
  truthy n = true → le0 n = true →
  set this sid session cb m = destroy this sid None m.
Proof.
  intros Ht Hn Hle. unfold set. unfold_M. rewrite Ht, Hn, Hle.
  pose proof (destroy_resolves m this sid None) as Hd.
  destruct (destroy this sid None m) as [[e|[]] m']; simpl in *; done.
Qed.

Lemma set_upsert m this sid session cb n c :
  getTTL session m = (inr (Some n), m) →
  positive n = true →
  container_of m this = Some c →
  set this sid session cb m =
    attempt (Cosmos.items_upsert c (<["ttl" := JNum n]> (sessionItem sid session)))
      (default noop cb) m.
Proof.
  intros Ht [Hn Hle]%positive_truthy Hc. unfold container_of in Hc.
  unfold set, this_container, attempt, observed. unfold_M.
  rewrite Ht, Hn, Hle. simpl. rewrite Hc. simpl.
  destruct (Cosmos.perform _ (world m)) as [[e|r] w']; simpl; [|done].
  by rewrite <-app_assoc.
Qed.

Lemma set_create m this sid session cb v c :
  getTTL session m = (inr v, m) →
  truthy v = false →
  container_of m this = Some c →
  set this sid session cb m =
    attempt (Cosmos.items_create c (sessionItem sid session)) (default noop cb) m.
Proof.
  intros Ht Hv Hc. unfold container_of in Hc.
  unfold set, this_container, attempt, observed. unfold_M.
  rewrite Ht. destruct v as [n|]; [change (truthy n = false) in Hv; rewrite Hv|];
    simpl; rewrite Hc; simpl;
    (destruct (Cosmos.perform _ (world m)) as [[e|r] w']; simpl; [|done]);
    by rewrite <-app_assoc.
Qed.

Lemma set_no_container m this sid session cb v :
  getTTL session m = (inr v, m) →
  truthy v && from_option le0 false v = false →
  container_of m this = None →
  set this sid session cb m =
    (inr (), observed m (world m)
               [Called (default noop cb) [ArgError (Cosmos.TypeError "this.container.items")]]).
Proof.
  intros Ht Hv Hc. unfold container_of in Hc.
  unfold set, this_container, observed. unfold_M.
  rewrite Ht. destruct v as [n|];
    [change (truthy n && le0 n = false) in Hv; destruct (truthy n); simpl in Hv;
     rewrite ?Hv|]; simpl; by rewrite Hc.
Qed.

Lemma touch_disabled m this sid session cb :
  truthy (disableTouch (options m)) = true →
  touch this sid session cb m =
    (inr (), observed m (world m) [Called (default noop cb) []]).
Proof. intros Hd. unfold touch. unfold_M. simpl. by rewrite Hd. Qed.

Lemma touch_enabled m this sid session cb c v :
  truthy (disableTouch (options m)) = false →
  container_of m this = Some c →
  getTTL session m = (inr v, m) →
  let r := Cosmos.item_patch c sid sid
             [ {| Cosmos.op := Cosmos.replace; Cosmos.path := "/ttl";
                  Cosmos.value := JNum <$> v |} ] in
  touch this sid session cb m =
    (inr (), observed m (snd (Cosmos.perform r (world m)))
               [Sent r; Called (default noop cb) []]).
Proof.
  intros Hd Hc Ht r. unfold container_of in Hc.
  unfold touch, this_container, observed. unfold_M. simpl.
  rewrite Hd, Hc. simpl. rewrite Ht. fold r.
  destruct (Cosmos.perform r (world m)) as [[e|r'] w']; simpl;
    by rewrite <-app_assoc.
Qed.

Lemma touch_no_container m this sid session cb :
  truthy (disableTouch (options m)) = false →
  container_of m this = None →
  touch this sid session cb m =
    (inr (), observed m (world m) [Called (default noop cb) []]).
Proof.
  intros Hd Hc. unfold container_of in Hc.
  unfold touch, this_container, observed. unfold_M. simpl.
  by rewrite Hd, Hc.
Qed.

(** C7.  With touch disabled, [touch] calls its callback with no
    argument and does nothing else: no request is sent, the world is as it
    was.  In every case, whether the patch succeeds or fails, [touch]
    resolves and calls its callback exactly once, with no argument. *)
Theorem touch_never_reports m this sid session cb :
  (truthy (disableTouch (options m)) = true →
     touch this sid session cb m =
       (inr (), observed m (world m) [Called (default noop cb) []])) ∧
  (∃ w' evs,
     touch this sid session cb m = (inr (), observed m w' evs) ∧
     calls_of evs = [(default noop cb, [])]).
Proof.
  split; [apply touch_disabled|].
  destruct (truthy (disableTouch (options m))) eqn:Hd.
  - eexists _, _. split; [by apply touch_disabled|done].
  - destruct (container_of m this) as [c|] eqn:Hc.
    + destruct (getTTL_pure m session) as [v Hv].
      eexists _, _. split; [by eapply touch_enabled|done].
    + eexists _, _. split; [by apply touch_no_container|done].
Qed.

Lemma sessionItem_id sid session :
  sessionItem sid session !! "id" = Some (default (JStr sid) (session !! "id")).
Proof.
  unfold sessionItem. destruct (session !! "id") as [v|] eqn:Hid; simpl.
  - by apply lookup_union_Some_l.
  - rewrite lookup_union_r by done. by rewrite lookup_singleton_eq.
Qed.

Lemma sessionItem_other sid session k :
  k ≠ "id" → sessionItem sid session !! k = session !! k.
Proof.
  intros Hk. unfold sessionItem. destruct (session !! k) as [v|] eqn:Hv.
  - by apply lookup_union_Some_l.
  - rewrite lookup_union_r by done. by rewrite lookup_singleton_ne.
Qed.

Lemma requests_of_attempt r callback m :
  requests_of (since m (snd (attempt r callback m))) = [r].
Proof.
  unfold attempt. destruct (Cosmos.perform r (world m)) as [[e|r'] w'];
    simpl; by rewrite since_observed.
Qed.

(** C9.  Whatever document [set] asks the container to write, by upsert
    or by create, carries the record's own [id] when the record has one,
    and [sid] when it has none. *)
Theorem set_document_id m this sid session cb r body :
  r ∈ requests_of (since m (snd (set this sid session cb m))) →
  written r = Some body →
  (∀ v, session !! "id" = Some v → body !! "id" = Some v) ∧
  (session !! "id" = None → body !! "id" = Some (JStr sid)).
Proof.
  intros Hr Hw.
  assert (body !! "id" = Some (default (JStr sid) (session !! "id"))) as Hid;
    [|by split; [intros v Hv|intros Hv]; rewrite Hid, Hv].
  destruct (getTTL_pure m session) as [v Hv].
  destruct (container_of m this) as [c|] eqn:Hc.
  - destruct (truthy v) eqn:Htv.
    + destruct v as [n|]; [|done]. change (truthy n = true) in Htv.
      destruct (le0 n) eqn:Hle.
      * rewrite (set_expired m this sid session cb n) in Hr by done.
        rewrite (destroy_attempt m this sid None c), requests_of_attempt in Hr by done.
        apply list_elem_of_singleton in Hr as ->. done.
      * rewrite (set_upsert m this sid session cb n c) in Hr; [|done| |done].
        -- rewrite requests_of_attempt in Hr.
           apply list_elem_of_singleton in Hr as ->. simpl in Hw. simplify_eq.
           rewrite lookup_insert_ne by done. apply sessionItem_id.
        -- destruct n as [z|]; simpl in *; [|done].
           unfold truthy, truthy_number in Htv.
           apply negb_true_iff, Z.eqb_neq in Htv. apply Z.leb_gt in Hle.
           apply Z.ltb_lt. lia.
    + rewrite (set_create m this sid session cb v c), requests_of_attempt in Hr by done.
      apply list_elem_of_singleton in Hr as ->. simpl in Hw. simplify_eq.
      apply sessionItem_id.
  - destruct (truthy v && from_option le0 false v) eqn:Hle.
    + destruct v as [n|]; [|done].
      change (truthy n && le0 n = true) in Hle. apply andb_true_iff in Hle as [Htv Hle].
      rewrite (set_expired m this sid session cb n) in Hr by done.
      rewrite destroy_no_container in Hr by done. simpl in Hr.
      rewrite since_observed in Hr. simpl in Hr. by apply elem_of_nil in Hr.
    + rewrite (set_no_container m this sid session cb v) in Hr by done.
      simpl in Hr. rewrite since_observed in Hr. simpl in Hr.
      by apply elem_of_nil in Hr.
Qed.

End Operations.

(** *** The account in memory *)

Section Account.
Import MemCosmos.
Implicit Types (a : Account) (c : Cosmos.Container).

Lemma find_names a c c' : names c' = names c → find c' a = find c a.
Proof. unfold names, find. by intros [= -> ->]. Qed.

Lemma find_with_items_same a c c' f :
  names c' = names c →
  find c' (with_items c f a) =
    (λ s, {| defaultTtl := defaultTtl s; partitionKey := partitionKey s;
             items := f (items s) |}) <$> find c a.
Proof.
  intros Hn. rewrite (find_names _ c c') by done.
  unfold find, with_items.
  destruct (Cosmos.db_id (Cosmos.c_database c)) as [d|]; [|done].
  destruct (Cosmos.id c) as [n|]; [|done]. simpl.
  rewrite lookup_alter_eq. destruct (databases a !! d) as [cs|]; [|done]. simpl.
  by rewrite lookup_alter_eq.
Qed.

Lemma find_with_items_other a c c' f :
  names c' ≠ names c → find c' (with_items c f a) = find c' a.
Proof.
  unfold names, find, with_items. intros Hn.
  destruct (Cosmos.db_id (Cosmos.c_database c)) as [d|]; [|done].
  destruct (Cosmos.id c) as [n|]; [|done].
  destruct (Cosmos.db_id (Cosmos.c_database c')) as [d'|]; [|done].
  destruct (Cosmos.id c') as [n'|]; [|done]. simpl.
  destruct (decide (d = d')) as [->|Hd].
  - rewrite lookup_alter_eq. destruct (databases a !! d') as [cs|]; [|done]. simpl.
    rewrite lookup_alter_ne; [done|]. congruence.
  - by rewrite lookup_alter_ne.
Qed.

(** Writing one item changes that item only. *)
Lemma stored_with_items_insert a c s i d c' j :
  find c a = Some s →
  stored (with_items c (<[i := d]>) a) c' j =
    if decide (names c' = names c ∧ j = i) then Some d else stored a c' j.
Proof.
  intros Hs. unfold stored. destruct (decide (names c' = names c)) as [Hn|Hn].
  - rewrite find_with_items_same, Hs by done. rewrite (find_names a c c'), Hs by done.
    simpl. destruct (decide (j = i)) as [->|Hj].
    + rewrite lookup_insert_eq. by rewrite decide_True.
    + rewrite lookup_insert_ne by done. rewrite decide_False; [done|]. by intros [_ ?].
  - rewrite find_with_items_other by done. rewrite decide_False; [done|]. by intros [? _].
Qed.

Lemma serve_patch_ttl a c i pk (v : option value) c' j :
  let r := Cosmos.item_patch c i pk
             [ {| Cosmos.op := Cosmos.replace; Cosmos.path := "/ttl";
                  Cosmos.value := v |} ] in
  delete "ttl" <$> stored (snd (serve r a)) c' j = delete "ttl" <$> stored a c' j.
Proof.
  simpl. destruct (find c a) as [s|] eqn:Hs; [|done].
  destruct (items s !! i) as [d|] eqn:Hd; [|done].
  destruct (String.eqb i pk); [|done].
  unfold patch, patch1. change (path_key "/ttl") with (Some "ttl"). simpl.
  destruct (d !! "ttl") as [old|]; [|done]. simpl.
  destruct v as [x|]; [|done]. simpl.
  destruct (valid_ttl _); [|done]. simpl.
  rewrite (stored_with_items_insert a c s) by done.
  case_decide as Hj; [|done]. destruct Hj as [Hn ->].
  unfold stored. rewrite (find_names a c c'), Hs by done. simpl. rewrite Hd. simpl.
  by rewrite delete_insert_eq.
Qed.

Lemma perform_patch_ttl a c i pk (v : option value) c' j :
  let r := Cosmos.item_patch c i pk
             [ {| Cosmos.op := Cosmos.replace; Cosmos.path := "/ttl";
                  Cosmos.value := v |} ] in
  delete "ttl" <$> stored (snd (perform r a)) c' j = delete "ttl" <$> stored a c' j.
Proof.
  intros r. unfold perform. destruct (faults a) as [|[e|] rest]; [| done |].
  - apply serve_patch_ttl.
  - unfold r. by rewrite serve_patch_ttl.
Qed.

End Account.

(** C8.  With touch enabled, [touch] sends one request: a patch of the
    item [sid] with the single operation that replaces [/ttl] by the TTL
    resolved for the record just then.  On the account in memory, that
    leaves every item of every container as it was, but for the [ttl]
    field of the patched item. *)
Theorem touch_writes_ttl_only :
  (∀ `{Cosmos.Platform W} (m : Machine W) this sid session cb c v,
     truthy (disableTouch (options m)) = false →
     container_of m this = Some c →
     getTTL session m = (inr v, m) →
     requests_of (since m (snd (touch this sid session cb m))) =
       [ Cosmos.item_patch c sid sid
           [ {| Cosmos.op := Cosmos.replace; Cosmos.path := "/ttl";
                Cosmos.value := JNum <$> v |} ] ]) ∧
  (∀ (m : Machine MemCosmos.Account) this sid session cb c' j,
     truthy (disableTouch (options m)) = false →
     delete "ttl" <$> stored (world (snd (touch this sid session cb m))) c' j =
     delete "ttl" <$> stored (world m) c' j).
Proof.
  split.
  - intros W ? m this sid session cb c v Hd Hc Hv.
    rewrite (touch_enabled m this sid session cb c v) by done. simpl.
    by rewrite since_observed.
  - intros m this sid session cb c' j Hd.
    destruct (container_of m this) as [c|] eqn:Hc.
    + destruct (getTTL_pure m session) as [v Hv].
      rewrite (touch_enabled m this sid session cb c v) by done. simpl.
      apply perform_patch_ttl.
    + by rewrite touch_no_container.
Qed.

(** *** The scenario *)

Section Scenario.
Import Scenario.

Example ready_is_ready :
  initializeStore defaultOptions uninitialized = (inr (Some 0), ready) ∧
  container_of ready 0 = Some sessions ∧
  fixed_ttl (options ready) = Some (Num 86400).
Proof. cbv zeta. split_and!; vm_compute; reflexivity. Qed.

Example getTTL_in_a_minute :
  fst (getTTL (expiring 1060000) ready) = inr (Some (Num 60)).
Proof. vm_compute. reflexivity. Qed.

Example getTTL_a_minute_ago :
  fst (getTTL (expiring 940000) ready) = inr (Some (Num (-60))).
Proof. vm_compute. reflexivity. Qed.

Example getTTL_half_a_second_ago :
  fst (getTTL (expiring 999500) ready) = inr (Some (Num 0)).
Proof. vm_compute. reflexivity. Qed.

(** C2, where the code departs from it.  A record that expired half a
    second ago resolves to a TTL of 0, which is not greater than 0; [set]
    does not destroy it: it sends a create of the record without a [ttl],
    no delete, and the account then holds the record. *)
Theorem set_ttl_zero_is_stored :
  let m := snd (set 0 "s1" (expiring 999500) (Some (Fn "saved")) ready) in
  fst (getTTL (expiring 999500) ready) = inr (Some (Num 0)) ∧
  since ready m = [Sent (Cosmos.items_create sessions (sessionItem "s1" (expiring 999500)))] ∧
  stored (world m) sessions "s1" = Some (sessionItem "s1" (expiring 999500)) ∧
  sessionItem "s1" (expiring 999500) !! "ttl" = None.
Proof. cbv zeta. split_and!; vm_compute; reflexivity. Qed.

(** C6, where the code departs from it.  Destroying a stored session
    with a callback: the delete succeeds, the item is gone, the operation
    resolves, and the callback has not been called. *)
Theorem destroy_success_is_silent :
  let m := snd (set 0 "s1" (expiring 1060000) None ready) in
  let r := destroy 0 "s1" (Some (Fn "destroyed")) m in
  stored (world m) sessions "s1" =
    Some (<["ttl" := JNum (Num 60)]> (sessionItem "s1" (expiring 1060000))) ∧
  fst r = inr () ∧
  stored (world (snd r)) sessions "s1" = None ∧
  since m (snd r) = [Sent (Cosmos.item_delete sessions "s1" "s1")] ∧
  calls_of (since m (snd r)) = [].
Proof. cbv zeta. split_and!; vm_compute; reflexivity. Qed.

(** C3, as stated, fails: after a successful initialization, a call whose
    options carry an empty database name does not return the instance; it
    throws. *)
Lemma initializeStore_again_may_throw :
  initializeStore defaultOptions uninitialized = (inr (Some 0), ready) ∧
  fst (initializeStore no_database_name ready) =
    inl (Cosmos.JsError "Database name is required") ∧
  fst (initializeStore no_database_name ready) ≠ inr (Some 0).
Proof. split_and!; [vm_compute; reflexivity ..|]. vm_compute. intros [=]. Qed.

(** C4, as stated, fails: a program that initializes the store, resets
    it and initializes it again has two instances, each with its container
    handle, the first one being no longer registered. *)
Lemma two_instances_after_reset :
  let m := run [call_initializeStore defaultOptions; call_reset;
                call_initializeStore defaultOptions] uninitialized in
  size (heap m) = 2 ∧
  container_of m 0 = Some sessions ∧
  container_of m 1 = Some sessions ∧
  _store m = Some 1.
Proof. cbv zeta. split_and!; vm_compute; reflexivity. Qed.

End Scenario.

(** *** The theorems at work on the scenario *)

Section Witnesses.
Import Scenario.

(** C1 on the scenario: the function policy of the tests wins over an
    expiry a minute ahead; without it the expiry gives 60; without an
    expiry the default gives 86400. *)
Lemma getTTL_precedence_witness :
  fst (getTTL (expiring 1060000) (ready_with (with_ttl (TtlFunction five)))) =
    inr (Some (Num 5)) ∧
  fst (getTTL (expiring 1060000) ready) = inr (Some (Num 60)) ∧
  fst (getTTL unexpiring ready) = inr (Some (Num 86400)) ∧
  fixed_ttl (options (snd (updateOptions defaultOptions uninitialized))) =
    Some (Num 86400).
Proof.
  split_and!.
  - rewrite (proj1 (getTTL_precedence (ready_with (with_ttl (TtlFunction five)))
                      (expiring 1060000)) five);
      [reflexivity | vm_compute; reflexivity].
  - rewrite (proj1 (proj2 (getTTL_precedence ready (expiring 1060000)))
               (JDate (Num 1060000)));
      vm_compute; reflexivity.
  - rewrite (proj1 (proj2 (proj2 (getTTL_precedence ready unexpiring))));
      vm_compute; reflexivity.
  - apply (proj2 (proj2 (proj2 (getTTL_precedence uninitialized unexpiring)))).
    reflexivity.
Defined.

(** C5 on the scenario: an expiry half a second ago gives 0, an expiry a
    minute ago gives -60. *)
Lemma getTTL_expires_ceiling_witness :
  fst (getTTL (expiring 999500) ready) = inr (Some (Num 0)) ∧
  fst (getTTL (expiring 940000) ready) = inr (Some (Num (-60))).
Proof.
  split.
  - rewrite (proj1 (getTTL_expires_ceiling ready (expiring 999500)
               (cookie_expiring 999500) (Num 999500) eq_refl eq_refl eq_refl)).
    vm_compute. reflexivity.
  - rewrite (proj1 (getTTL_expires_ceiling ready (expiring 940000)
               (cookie_expiring 940000) (Num 940000) eq_refl eq_refl eq_refl)).
    vm_compute. reflexivity.
Defined.

(** C3 on the scenario: three more calls on the ready store. *)
Lemma initializeStore_idempotent_witness :
  initializeStore_each
    [defaultOptions; with_ttl (TtlFunction five); no_database_name] ready =
    ([inr (Some 0); inr (Some 0); inl (Cosmos.JsError "Database name is required")],
     ready).
Proof.
  refine (proj2 (initializeStore_idempotent uninitialized defaultOptions (Some 0)
                   ready _ _)).
  vm_compute. reflexivity.
Defined.

(** C4 on the scenario: the constructor on the ready store. *)
Lemma constructor_never_public_witness :
  ∃ e, constructor ready = (inl e, ready).
Proof.
  apply (proj1 constructor_never_public ready). left. vm_compute. by eexists.
Defined.

(** C7 on the scenario: a store with touch disabled. *)
Lemma touch_never_reports_witness :
  let m := ready_with no_touch in
  touch 0 "s1" unexpiring (Some (Fn "touched")) m =
    (inr (), observed m (world m) [Called (Fn "touched") []]).
Proof.
  intros m.
  apply (proj1 (touch_never_reports m 0 "s1" unexpiring (Some (Fn "touched")))).
  vm_compute. reflexivity.
Defined.

(** C8 on the scenario: touching a stored session. *)
Lemma touch_writes_ttl_only_witness :
  let m := snd (set 0 "s1" unexpiring None ready) in
  let m' := snd (touch 0 "s1" unexpiring None m) in
  requests_of (since m m') =
    [ Cosmos.item_patch sessions "s1" "s1"
        [ {| Cosmos.op := Cosmos.replace; Cosmos.path := "/ttl";
             Cosmos.value := Some (JNum (Num 86400)) |} ] ] ∧
  ∀ c' j, delete "ttl" <$> stored (world m') c' j =
          delete "ttl" <$> stored (world m) c' j.
Proof.
  intros m m'. split.
  - apply (proj1 touch_writes_ttl_only _ _ m 0 "s1" unexpiring None sessions
             (Some (Num 86400))); vm_compute; reflexivity.
  - intros c' j. apply (proj2 touch_writes_ttl_only m 0 "s1" unexpiring None c' j).
    vm_compute. reflexivity.
Defined.

(** C9 on the scenario: a record with an id of its own. *)
Lemma set_document_id_witness :
  let body := <["ttl" := JNum (Num 86400)]> (sessionItem "s1" with_own_id) in
  Cosmos.items_upsert sessions body
    ∈ requests_of (since ready (snd (set 0 "s1" with_own_id None ready))) ∧
  body !! "id" = Some (JStr "own").
Proof.
  intros body.
  assert (Cosmos.items_upsert sessions body
            ∈ requests_of (since ready (snd (set 0 "s1" with_own_id None ready))))
    as Hin by (vm_compute; left).
  split; [exact Hin|].
  apply (proj1 (set_document_id ready 0 "s1" with_own_id None
                  (Cosmos.items_upsert sessions body) body Hin eq_refl)).
  vm_compute. reflexivity.
Defined.

(** C10 on the scenario: options with a [ttl] of 0 and an empty container
    name. *)
Lemma updateOptions_falsy_defaults_witness :
  ttl (options (ready_with falsy)) = Some (TtlNumber (Num 86400)) ∧
  containerName (options (ready_with falsy)) = Some "sessions".
Proof.
  destruct (updateOptions_falsy_defaults uninitialized falsy)
    as (Httl & _ & Hname & Hinit).
  unfold ready_with. rewrite Hinit by (vm_compute; reflexivity).
  split; [apply Httl | apply Hname]; reflexivity.
Defined.

End Witnesses.

(* ===================================================================== *)
(** ** More of the store *)
(* ===================================================================== *)

Section Reads.
Context `{Cosmos.Platform W}.
Implicit Types (m : Machine W) (session : SessionData) (cb : option Callback).

(** X1.  [get] on an instance with a container sends one point read of
    [sid] and calls its callback exactly once: with [(null, resource)] when
    the response carries a resource, with [(null, null)] when it carries
    none, with [(error)] when the read throws.  It resolves in each case. *)
Theorem get_calls_back_once m this sid cb c :
  container_of m this = Some c →
  let r := Cosmos.item_read c sid sid in
  get this sid cb m =
    (inr (),
     observed m (snd (Cosmos.perform r (world m)))
       [Sent r;
        Called (default noop cb)
          match fst (Cosmos.perform r (world m)) with
          | inl e => [ArgError e]
          | inr resp =>
              match Cosmos.resource resp with
              | Some d => [ArgNull; ArgValue (JObj d)]
              | None => [ArgNull; ArgNull]
              end
          end]).
Proof.
  intros Hc r. unfold container_of in Hc.
  unfold get, this_container, observed. unfold_M. simpl.
  rewrite Hc. simpl. fold r.
  destruct (Cosmos.perform r (world m)) as [[e|resp] w']; simpl.
  - by rewrite <-app_assoc.
  - destruct (Cosmos.resource resp); simpl; by rewrite <-app_assoc.
Qed.

(** X2.  [all] sends one read of all items and calls its callback exactly
    once: with [(null, resources)] when the call succeeds, with [(error)]
    when it throws. *)
Theorem all_calls_back_once m this cb c :
  container_of m this = Some c →
  let r := Cosmos.items_readAll_fetchAll c in
  all this cb m =
    (inr (),
     observed m (snd (Cosmos.perform r (world m)))
       [Sent r;
        Called (default noop cb)
          match fst (Cosmos.perform r (world m)) with
          | inl e => [ArgError e]
          | inr resp =>
              [ArgNull;
               match Cosmos.resources resp with
               | Some l => ArgValue (JArr l)
               | None => ArgUndefined
               end]
          end]).
Proof.
  intros Hc r. unfold container_of in Hc.
  unfold all, this_container, observed. unfold_M. simpl.
  rewrite Hc. simpl. fold r.
  destruct (Cosmos.perform r (world m)) as [[e|resp] w']; simpl;
    [|destruct (Cosmos.resources resp); simpl]; by rewrite <-app_assoc.
Qed.

(** X3.  [length] sends the one query
    [SELECT VALUE COUNT(s.id) FROM <container id> s] and calls its callback
    exactly once: with [(null, count)], [count] being the first element of
    the result, or undefined when the result is empty; with a [TypeError]
    when the response has no result array; with the error when the query
    throws. *)
Theorem length_calls_back_once m this cb c :
  container_of m this = Some c →
  let r := Cosmos.items_query_fetchAll c
             ("SELECT VALUE COUNT(s.id) FROM "
              +:+ default "undefined" (Cosmos.id c) +:+ " s") in
  length this cb m =
    (inr (),
     observed m (snd (Cosmos.perform r (world m)))
       [Sent r;
        Called (default noop cb)
          match fst (Cosmos.perform r (world m)) with
          | inl e => [ArgError e]
          | inr resp =>
              match Cosmos.resources resp with
              | Some (count :: _) => [ArgNull; ArgValue count]
              | Some [] => [ArgNull; ArgUndefined]
              | None => [ArgError (Cosmos.TypeError "resources is not iterable")]
              end
          end]).
Proof.
  intros Hc r. unfold container_of in Hc.
  unfold length, this_container, observed. unfold_M. simpl.
  rewrite Hc. simpl. fold r.
  destruct (Cosmos.perform r (world m)) as [[e|resp] w']; simpl;
    [|destruct (Cosmos.resources resp) as [[|count l]|]; simpl];
    by rewrite <-app_assoc.
Qed.

End Reads.

Section Provisioning.
Context `{Cosmos.Platform W}.
Implicit Types (m : Machine W) (o : CosmosStoreOptions).

(** What [setup] comes to, request by request. *)
Lemma setup_unfold m this client :
  cosmosClient (options m) = Some client →
  heap m !! this = Some {| database := None; container := None |} →
  let name := containerName (options m) in
  let r1 := Cosmos.databases_createIfNotExists client (databaseName (options m)) in
  setup this m =
    match Cosmos.perform r1 (world m) with
    | (inl e, w1) => (inl e, observed m w1 [Sent r1])
    | (inr resp, w1) =>
        match Cosmos.database resp with
        | None =>
            (inl (Cosmos.TypeError "this.database.container"),
             observed m w1 [Sent r1])
        | Some d =>
            let r2 := Cosmos.containers_createIfNotExists d name (-1) PARTITION_KEY_PATH in
            match Cosmos.perform r2 w1 with
            | (inl e, w2) =>
                (inl e,
                 {| _store := _store m; options := options m;
                    heap := <[this := {| database := Some d; container := None |}]> (heap m);
                    world := w2; trace := trace m ++ [Sent r1; Sent r2] |})
            | (inr _, w2) =>
                (inr (),
                 {| _store := _store m; options := options m;
                    heap := <[this := {| database := Some d;
                                         container := Some (Cosmos.Database_container d name) |}]>
                              (heap m);
                    world := w2; trace := trace m ++ [Sent r1; Sent r2] |})
            end
        end
    end.
Proof.
  intros Hc Hh name r1.
  unfold setup, createContainer, set_this_database, set_this_container,
    this_database, observed. unfold_M. simpl. rewrite Hc. simpl. fold r1.
  destruct (Cosmos.perform r1 (world m)) as [[e|resp] w1]; simpl; [done|].
  rewrite (lookup_alter_eq (M:=gmap ref)), Hh. simpl.
  destruct (Cosmos.database resp) as [d|]; simpl.
  - fold name.
    destruct (Cosmos.perform _ w1) as [[e|resp2] w2]; simpl.
    + rewrite <-app_assoc. simpl. do 2 f_equal.
      apply map_eq. intros i. destruct (decide (i = this)) as [->|Hi].
      * by rewrite lookup_alter_eq, lookup_insert_eq, Hh.
      * by rewrite lookup_alter_ne, lookup_insert_ne.
    + rewrite (lookup_alter_eq (M:=gmap ref)), Hh. simpl. rewrite <-app_assoc. simpl.
      do 2 f_equal. apply map_eq. intros i.
      destruct (decide (i = this)) as [->|Hi].
      * by rewrite !lookup_alter_eq, lookup_insert_eq, Hh.
      * by rewrite !lookup_alter_ne, lookup_insert_ne.
  - rewrite (lookup_alter_eq (M:=gmap ref)), Hh. simpl.
    do 2 f_equal. apply map_eq. intros i.
    destruct (decide (i = this)) as [->|Hi].
    + rewrite (lookup_alter_eq (M:=gmap ref)), Hh. done.
    + by rewrite lookup_alter_ne.

Qed.

(** The options [updateOptions] captures. *)
Lemma initializeStore_first_unfold m o :
  valid o = true → _store m = None →
  let this := fresh (dom (heap m)) in
  let m0 :=
    {| _store := Some this; options := options (snd (updateOptions o m));
       heap := <[this := {| database := None; container := None |}]> (heap m);
       world := world m; trace := trace m |} in
  initializeStore o m =
    match setup this m0 with
    | (inl e, m') => (inl e, m')
    | (inr _, m') => (inr (_store m'), m')
    end.
Proof.
  intros [Hc Hd]%valid_checks Hs this m0.
  unfold initializeStore. unfold_M. rewrite Hc, Hd. simpl. rewrite Hs. simpl.
  rewrite constructor_fresh by done. simpl. fold this.
  change (setup this _) with (setup this m0).
  by destruct (setup this m0) as [[e|[]] m'].
Qed.

Lemma valid_client o : valid o = true → ∃ client, cosmosClient o = Some client.
Proof.
  intros [Hc _]%valid_checks. destruct (cosmosClient o) as [client|]; [eauto|done].
Qed.

(** X4.  The first [initializeStore]: when the two provisioning calls
    succeed, exactly these two requests have been sent, in this order: the
    database is created if absent under the configured name, then the
    container under the configured name (["sessions"] when none or an empty
    one was given), with default TTL -1 and partition key [/id]; the new
    instance is registered and returned, and holds the database of the
    response and the container of that name in it. *)
Theorem initializeStore_provisions m o client resp w1 d resp2 w2 :
  valid o = true → _store m = None →
  cosmosClient o = Some client →
  let name := or_else (containerName o) "sessions" in
  let r1 := Cosmos.databases_createIfNotExists client (databaseName o) in
  let r2 := Cosmos.containers_createIfNotExists d (Some name) (-1) "/id" in
  Cosmos.perform r1 (world m) = (inr resp, w1) →
  Cosmos.database resp = Some d →
  Cosmos.perform r2 w1 = (inr resp2, w2) →
  let this := fresh (dom (heap m)) in
  initializeStore o m =
    (inr (Some this),
     {| _store := Some this;
        options := options (snd (updateOptions o m));
        heap := <[this := {| database := Some d;
                             container := Some (Cosmos.Database_container d (Some name)) |}]>
                  (heap m);
        world := w2;
        trace := trace m ++ [Sent r1; Sent r2] |}).
Proof.
  intros Hv Hs Hc name r1 r2 H1 Hd H2 this.
  rewrite initializeStore_first_unfold by done. fold this.
  rewrite (setup_unfold _ this client); [|by simpl|by simpl; rewrite lookup_insert_eq].
  simpl. fold r1. rewrite H1. simpl. rewrite Hd. simpl.
  change (Cosmos.perform _ w1) with (Cosmos.perform r2 w1). rewrite H2. simpl.
  by rewrite insert_insert_eq.
Qed.

(** X5.  When the first [initializeStore] passes validation and then
    throws, in provisioning, the instance it constructed stays registered,
    without a container; every later call with valid options returns that
    instance and provisions nothing. *)
Theorem initializeStore_failure_keeps_instance m o e :
  valid o = true → _store m = None →
  fst (initializeStore o m) = inl e →
  let this := fresh (dom (heap m)) in
  let m' := snd (initializeStore o m) in
  _store m' = Some this ∧
  container_of m' this = None ∧
  ∀ o', valid o' = true → initializeStore o' m' = (inr (Some this), m').
Proof.
  intros Hv Hs He this m'.
  pose proof (initializeStore_first m o Hv Hs) as Hf.
  assert (_store m' = Some this) as Hs'.
  { unfold m'. destruct (initializeStore o m). by destruct Hf as [? _]. }
  split_and!; [done| |by intros o' Hv'; apply initializeStore_again].
  destruct (valid_client o Hv) as [client Hc].
  unfold m', container_of. revert He.
  rewrite initializeStore_first_unfold by done. fold this.
  rewrite (setup_unfold _ this client); [|by simpl|by simpl; rewrite lookup_insert_eq].
  simpl.
  destruct (Cosmos.perform _ (world m)) as [[e1|resp] w1]; simpl.
  { by rewrite lookup_insert_eq. }
  destruct (Cosmos.database resp) as [d|]; simpl.
  2:{ by rewrite lookup_insert_eq. }
  destruct (Cosmos.perform _ w1) as [[e2|resp2] w2]; simpl; [|done].
  by rewrite insert_insert_eq, lookup_insert_eq.
Qed.

End Provisioning.

Section Methods.
Context `{Cosmos.Platform W}.
Implicit Types (m : Machine W) (session : SessionData) (cb : option Callback).

(** X6.  On an instance without a container (its provisioning failed),
    [get], [destroy], [all] and [length] send nothing and report a
    [TypeError] through the callback; [touch] sends nothing and calls its
    callback with no argument. *)
Theorem methods_without_container m this sid session cb :
  container_of m this = None →
  let reported what :=
    (inr (), observed m (world m)
               [Called (default noop cb) [ArgError (Cosmos.TypeError what)]]) in
  get this sid cb m = reported "this.container.item" ∧
  destroy this sid cb m = reported "this.container.item" ∧
  all this cb m = reported "this.container.items" ∧
  length this cb m = reported "this.container.items" ∧
  (truthy (disableTouch (options m)) = false →
   touch this sid session cb m =
     (inr (), observed m (world m) [Called (default noop cb) []])).
Proof.
  intros Hc reported. split_and!.
  - unfold container_of in Hc. unfold reported, get, this_container, observed.
    unfold_M. simpl. by rewrite Hc.
  - by apply destroy_no_container.
  - unfold container_of in Hc. unfold reported, all, this_container, observed.
    unfold_M. simpl. by rewrite Hc.
  - unfold container_of in Hc. unfold reported, length, this_container, observed.
    unfold_M. simpl. by rewrite Hc.
  - intros Hd. by apply touch_no_container.
Qed.

(** X7.  No method of an instance changes the registered instance, the
    configuration, or the set of instances. *)
Theorem methods_keep_statics (c : Call) m :
  is_method c = true → shape (exec c m) = shape m.
Proof.
  destruct c; try done; intros _; simpl.
  - apply quiet_get.
  - apply quiet_set.
  - apply quiet_destroy.
  - apply quiet_touch.
  - apply quiet_all.
  - apply quiet_length.
  - apply quiet_clear.
Qed.

Lemma try_catch_call_resolves (body : M W ()) callback (args : Cosmos.Error → list Arg) m :
  fst (try_catch body (λ e, call callback (args e)) m) = inr ().
Proof.
  unfold try_catch. destruct (body m) as [[e|[]] m']; simpl; done.
Qed.

(** X8.  None of the seven session operations rejects: whatever the
    backing store answers or throws, each of them resolves. *)
Theorem operations_resolve m this sid session cb :
  fst (get this sid cb m) = inr () ∧
  fst (set this sid session cb m) = inr () ∧
  fst (destroy this sid cb m) = inr () ∧
  fst (touch this sid session cb m) = inr () ∧
  fst (all this cb m) = inr () ∧
  fst (length this cb m) = inr () ∧
  fst (clear this cb m) = inr ().
Proof.
  split_and!.
  - unfold get. apply (try_catch_call_resolves _ _ (λ e, [ArgError e])).
  - unfold set. unfold mbind at 1. unfold M_bind.
    destruct (getTTL_pure m session) as [v ->].
    apply (try_catch_call_resolves _ _ (λ e, [ArgError e])).
  - apply destroy_resolves.
  - unfold touch. unfold mbind at 1. unfold M_bind, read.
    destruct (truthy (disableTouch (options m))); [done|].
    apply (try_catch_call_resolves _ _ (λ _, [])).
  - unfold all. apply (try_catch_call_resolves _ _ (λ e, [ArgError e])).
  - unfold length. apply (try_catch_call_resolves _ _ (λ e, [ArgError e])).
  - unfold clear. apply (try_catch_call_resolves _ _ (λ e, [ArgError e])).
Qed.

End Methods.

Section Configuration.
Context `{Cosmos.Platform W}.
Implicit Types (m : Machine W) (session : SessionData) (cb : option Callback)
  (o : CosmosStoreOptions).

Lemma initializeStore_first_others m o old :
  valid o = true → _store m = None →
  old ≠ fresh (dom (heap m)) →
  heap (snd (initializeStore o m)) !! old = heap m !! old.
Proof.
  intros Hv Hs Hold. destruct (valid_client o Hv) as [client Hc].
  rewrite initializeStore_first_unfold by done.
  rewrite (setup_unfold _ _ client); [|by simpl|by simpl; rewrite lookup_insert_eq].
  simpl.
  destruct (Cosmos.perform _ (world m)) as [[e1|resp] w1]; simpl.
  { by rewrite lookup_insert_ne. }
  destruct (Cosmos.database resp) as [d|]; simpl.
  2:{ by rewrite lookup_insert_ne. }
  destruct (Cosmos.perform _ w1) as [[e2|resp2] w2]; simpl;
    by rewrite !lookup_insert_ne.
Qed.

(** X9.  [reset] forgets the instance and the configuration and nothing
    else.  A valid [initializeStore] after it captures the new options and
    registers an instance that is new: it is none of the instances that
    exist, and those keep their handles. *)
Theorem reset_then_initializeStore m o :
  valid o = true →
  let m1 := snd (reset m) in
  let m2 := snd (initializeStore o m1) in
  let this := fresh (dom (heap m)) in
  (_store m1 = None ∧ options m1 = empty_options ∧ heap m1 = heap m ∧
   world m1 = world m ∧ trace m1 = trace m) ∧
  _store m2 = Some this ∧
  heap m !! this = None ∧
  options m2 = options (snd (updateOptions o m)) ∧
  ∀ old, is_Some (heap m !! old) → container_of m2 old = container_of m old.
Proof.
  intros Hv m1 m2 this.
  assert (heap m !! this = None) as Hfresh.
  { apply not_elem_of_dom, is_fresh. }
  split; [done|].
  pose proof (initializeStore_first m1 o Hv eq_refl) as Hf.
  fold m2 in Hf. change (heap m1) with (heap m) in Hf. fold this in Hf.
  split_and!; [|done| |].
  - unfold m2. destruct (initializeStore o m1). by destruct Hf as [? _].
  - unfold m2. destruct (initializeStore o m1). destruct Hf as (_ & Ho & _).
    simpl. by rewrite Ho.
  - intros old [i Hi]. unfold container_of, m2.
    rewrite (initializeStore_first_others m1 o old); [done..|].
    intros ->. change (heap m1) with (heap m) in Hi. fold this in Hi. congruence.
Qed.

(** X10.  The TTL policy given to a first, valid [initializeStore] is the
    one [getTTL] then follows: a function is called on the record; for a
    record without expiry, a number that is not 0 (nor NaN) is returned as
    it is, and 86400 is returned when the options give 0 or no [ttl]. *)
Theorem configured_ttl_is_used m o session :
  valid o = true → _store m = None →
  let m' := snd (initializeStore o m) in
  (∀ f, ttl o = Some (TtlFunction f) →
     getTTL session m' = (inr (Some (f session)), m')) ∧
  (truthy (cookie_expires session) = false →
   ∀ n, ttl o = Some (TtlNumber n) →
     getTTL session m' = (inr (Some (if truthy n then n else Num 86400)), m')) ∧
  (truthy (cookie_expires session) = false → ttl o = None →
     getTTL session m' = (inr (Some (Num 86400)), m')).
Proof.
  intros Hv Hs m'.
  assert (options m' = options (snd (updateOptions o m))) as Ho.
  { pose proof (initializeStore_first m o Hv Hs) as Hf. unfold m'.
    destruct (initializeStore o m). by destruct Hf as (_ & Ho & _). }
  rewrite updateOptions_options in Ho.
  split_and!.
  - intros f Hf. apply getTTL_function. rewrite Ho. simpl. by rewrite Hf.
  - intros He n Hn. rewrite getTTL_fixed; [| |done].
    + unfold fixed_ttl. rewrite Ho. simpl. rewrite Hn. simpl.
      change (truthy (TtlNumber n)) with (truthy n). by destruct (truthy n).
    + rewrite Ho. simpl. rewrite Hn. simpl.
      change (truthy (TtlNumber n)) with (truthy n). by destruct (truthy n).
  - intros He Hn. rewrite getTTL_fixed; [| |done].
    + unfold fixed_ttl. rewrite Ho. simpl. by rewrite Hn.
    + rewrite Ho. simpl. by rewrite Hn.
Qed.

(** X11.  After [reset] an instance that is still held has no TTL policy
    to follow: for a record without expiry [getTTL] is undefined, and [set]
    creates the record without a [ttl] (and fails if the id exists, create
    being no upsert). *)
Theorem set_after_reset_has_no_ttl m this sid session cb c :
  container_of m this = Some c →
  truthy (cookie_expires session) = false →
  let m1 := snd (reset m) in
  getTTL session m1 = (inr None, m1) ∧
  set this sid session cb m1 =
    attempt (Cosmos.items_create c (sessionItem sid session)) (default noop cb) m1.
Proof.
  intros Hc He m1.
  assert (getTTL session m1 = (inr None, m1)) as Ht.
  { by rewrite getTTL_fixed. }
  split; [done|]. by apply (set_create m1 this sid session cb None c).
Qed.

(** X12.  A record whose [cookie.expires] is an invalid date resolves to
    NaN under a policy that is not a function; NaN being falsy, [set]
    creates the record without a [ttl]. *)
Theorem set_invalid_date_has_no_ttl m this sid session cb c (cookie : gmap string value) :
  is_function (ttl (options m)) = false →
  session !! "cookie" = Some (JObj cookie) →
  cookie !! "expires" = Some (JDate NaN) →
  container_of m this = Some c →
  getTTL session m = (inr (Some NaN), m) ∧
  set this sid session cb m =
    attempt (Cosmos.items_create c (sessionItem sid session)) (default noop cb) m.
Proof.
  intros Hf Hs He Hc.
  assert (getTTL session m = (inr (Some NaN), m)) as Ht.
  { rewrite (getTTL_expires m session (JDate NaN)); [done|done| |done].
    unfold cookie_expires. rewrite Hs. simpl. done. }
  split; [done|]. by apply (set_create m this sid session cb (Some NaN) c).
Qed.

(** X13.  When the resolved TTL is negative, [set] sends one request, the
    delete of [sid], and hands [destroy] no callback: the caller's callback
    is never called, not even when the delete fails. *)
Theorem set_expired_deletes_sid m this sid session cb c z :
  getTTL session m = (inr (Some (Num z)), m) →
  (z < 0)%Z →
  container_of m this = Some c →
  set this sid session cb m = attempt (Cosmos.item_delete c sid sid) noop m.
Proof.
  intros Ht Hz Hc.
  rewrite (set_expired m this sid session cb (Num z)); [|done| |].
  - by rewrite (destroy_attempt m this sid None c).
  - unfold truthy, truthy_number. apply negb_true_iff, Z.eqb_neq. lia.
  - simpl. apply Z.leb_le. lia.
Qed.

(** What [set] writes is the record with [id] and, on upsert, the TTL. *)
Lemma set_written m this sid session cb r body :
  r ∈ requests_of (since m (snd (set this sid session cb m))) →
  written r = Some body →
  (∃ c, r = Cosmos.items_create c body ∧ body = sessionItem sid session) ∨
  (∃ c n, r = Cosmos.items_upsert c body ∧
          getTTL session m = (inr (Some n), m) ∧ positive n = true ∧
          body = <["ttl" := JNum n]> (sessionItem sid session)).
Proof.
  intros Hr Hw.
  destruct (getTTL_pure m session) as [v Hv].
  destruct (container_of m this) as [c|] eqn:Hc.
  - destruct (truthy v) eqn:Htv.
    + destruct v as [n|]; [|done]. change (truthy n = true) in Htv.
      destruct (le0 n) eqn:Hle.
      * rewrite (set_expired m this sid session cb n) in Hr by done.
        rewrite (destroy_attempt m this sid None c), requests_of_attempt in Hr by done.
        apply list_elem_of_singleton in Hr as ->. done.
      * assert (positive n = true) as Hp.
        { destruct n as [z|]; simpl in *; [|done].
          unfold truthy, truthy_number in Htv.
          apply negb_true_iff, Z.eqb_neq in Htv. apply Z.leb_gt in Hle.
          apply Z.ltb_lt. lia. }
        rewrite (set_upsert m this sid session cb n c) in Hr by done.
        rewrite requests_of_attempt in Hr.
        apply list_elem_of_singleton in Hr as ->. simpl in Hw. simplify_eq.
        right. eauto 10.
    + rewrite (set_create m this sid session cb v c), requests_of_attempt in Hr by done.
      apply list_elem_of_singleton in Hr as ->. simpl in Hw. simplify_eq.
      left. eauto.
  - exfalso. destruct (truthy v && from_option le0 false v) eqn:Hle.
    + destruct v as [n|]; [|done].
      change (truthy n && le0 n = true) in Hle. apply andb_true_iff in Hle as [Htv Hle].
      rewrite (set_expired m this sid session cb n) in Hr by done.
      rewrite destroy_no_container in Hr by done. simpl in Hr.
      rewrite since_observed in Hr. simpl in Hr. by apply elem_of_nil in Hr.
    + rewrite (set_no_container m this sid session cb v) in Hr by done.
      simpl in Hr. rewrite since_observed in Hr. simpl in Hr.
      by apply elem_of_nil in Hr.
Qed.

(** X14.  Whatever document [set] writes keeps every field of the record
    other than [id] and [ttl] as the record has it, and adds no other
    field. *)
Theorem set_document_fields m this sid session cb r body k :
  r ∈ requests_of (since m (snd (set this sid session cb m))) →
  written r = Some body →
  k ≠ "id" → k ≠ "ttl" →
  body !! k = session !! k.
Proof.
  intros Hr Hw Hid Httl.
  destruct (set_written m this sid session cb r body Hr Hw)
    as [(c & _ & ->)|(c & n & _ & _ & _ & ->)].
  - by apply sessionItem_other.
  - rewrite lookup_insert_ne by done. by apply sessionItem_other.
Qed.

(** X15.  [set] never upserts a TTL that is not positive: the [ttl] of
    an upserted document is the TTL resolved for the record, a positive
    number, whatever [ttl] the record carried; a created document has the
    [ttl] field of the record, if any. *)
Theorem set_document_ttl m this sid session cb r body :
  r ∈ requests_of (since m (snd (set this sid session cb m))) →
  written r = Some body →
  match r with
  | Cosmos.items_upsert _ _ =>
      ∃ n, getTTL session m = (inr (Some n), m) ∧ positive n = true ∧
           body !! "ttl" = Some (JNum n)
  | _ => body !! "ttl" = session !! "ttl"
  end.
Proof.
  intros Hr Hw.
  destruct (set_written m this sid session cb r body Hr Hw)
    as [(c & -> & ->)|(c & n & -> & Ht & Hp & ->)].
  - by apply sessionItem_other.
  - exists n. by rewrite lookup_insert_eq.
Qed.

End Configuration.

Section Clear.
Context `{Cosmos.Platform W}.
Implicit Types (m : Machine W) (cb : option Callback).

(** X16.  [clear] deletes, in the database of the instance, the container
    that the configuration names, and then creates it again with default
    TTL -1 and partition key [/id].  When the delete throws, the error goes
    to the callback and nothing is created; when the create throws, the
    error goes to the callback; when both succeed the callback is not
    called.  Without a database, [clear] does nothing at all. *)
Theorem clear_deletes_then_creates m this cb :
  let name := containerName (options m) in
  clear this cb m =
    match database_of m this with
    | None => (inr (), m)
    | Some d =>
        let r1 := Cosmos.container_delete (Cosmos.Database_container d name) in
        let r2 := Cosmos.containers_createIfNotExists d name (-1) "/id" in
        match Cosmos.perform r1 (world m) with
        | (inl e, w1) =>
            (inr (), observed m w1 [Sent r1; Called (default noop cb) [ArgError e]])
        | (inr _, w1) =>
            match Cosmos.perform r2 w1 with
            | (inl e, w2) =>
                (inr (), observed m w2
                           [Sent r1; Sent r2; Called (default noop cb) [ArgError e]])
            | (inr _, w2) => (inr (), observed m w2 [Sent r1; Sent r2])
            end
        end
    end.
Proof.
  intros name. unfold database_of, clear, createContainer, this_database, observed.
  unfold_M. simpl. fold name.
  destruct (heap m !! this) as [[[d|] c]|] eqn:Hh; simpl; rewrite ?Hh; simpl;
    [|done..].
  destruct (Cosmos.perform _ (world m)) as [[e|resp] w1]; simpl.
  - by rewrite <-app_assoc.
  - rewrite Hh. simpl.
    destruct (Cosmos.perform _ w1) as [[e|resp2] w2]; simpl;
      by rewrite <-!app_assoc.
Qed.

End Clear.

(** *** Round trips through the account in memory *)

Section RoundTrips.
Import MemCosmos.
Implicit Types (m : Machine Account) (a : Account) (c : Cosmos.Container)
  (session : SessionData) (cb : option Callback).

Lemma perform_no_faults a r : faults a = [] → perform r a = serve r a.
Proof. unfold perform. by intros ->. Qed.

Lemma faults_with_items a c f : faults (with_items c f a) = faults a.
Proof. unfold with_items. by repeat case_match. Qed.

Lemma find_with_items a c s f :
  find c a = Some s →
  find c (with_items c f a) =
    Some {| defaultTtl := defaultTtl s; partitionKey := partitionKey s;
            items := f (items s) |}.
Proof. intros Hs. by rewrite find_with_items_same, Hs. Qed.

Lemma stored_with_items_delete a c s i j :
  find c a = Some s →
  stored (with_items c (delete i) a) c j =
    if decide (j = i) then None else stored a c j.
Proof.
  intros Hs. unfold stored. rewrite (find_with_items a c s), Hs by done. simpl.
  case_decide as Hj; [subst; apply lookup_delete_eq|by apply lookup_delete_ne].
Qed.

Lemma get_on_account m this sid cb c s :
  container_of m this = Some c →
  find c (world m) = Some s →
  faults (world m) = [] →
  get this sid cb m =
    (inr (),
     observed m (world m)
       [Sent (Cosmos.item_read c sid sid);
        Called (default noop cb)
          match items s !! sid with
          | Some d => [ArgNull; ArgValue (JObj d)]
          | None => [ArgNull; ArgNull]
          end]).
Proof.
  intros Hc Hs Hf. unfold container_of in Hc.
  unfold get, this_container, observed. unfold_M. simpl.
  rewrite Hc. simpl. rewrite perform_no_faults by done. simpl.
  rewrite Hs, String.eqb_refl. simpl.
  destruct (items s !! sid); simpl; by rewrite <-app_assoc.
Qed.

Lemma body_id_upsert sid session (n : number) :
  sid ≠ "" → session !! "id" = None →
  body_id (<["ttl" := JNum n]> (sessionItem sid session)) = Some sid.
Proof.
  intros Hsid Hid. unfold body_id.
  rewrite lookup_insert_ne by done. rewrite sessionItem_id, Hid. simpl.
  by destruct (String.eqb_spec sid "").
Qed.

Lemma body_id_own sid session (n : number) own :
  own ≠ "" → session !! "id" = Some (JStr own) →
  body_id (<["ttl" := JNum n]> (sessionItem sid session)) = Some own.
Proof.
  intros Hown Hid. unfold body_id.
  rewrite lookup_insert_ne by done. rewrite sessionItem_id, Hid. simpl.
  by destruct (String.eqb_spec own "").
Qed.

Lemma valid_ttl_upsert (d : Doc) (n : number) :
  positive n = true → valid_ttl (<["ttl" := JNum n]> d) = true.
Proof.
  intros Hp. unfold valid_ttl. rewrite lookup_insert_eq.
  destruct n as [z|]; simpl in *; [|done]. by rewrite Hp.
Qed.

(** A [set] that upserts, on an account that answers. *)
Lemma set_on_account m this sid session cb c s n i :
  container_of m this = Some c →
  find c (world m) = Some s →
  faults (world m) = [] →
  getTTL session m = (inr (Some n), m) →
  positive n = true →
  let body := <["ttl" := JNum n]> (sessionItem sid session) in
  body_id body = Some i →
  set this sid session cb m =
    (inr (), observed m (with_items c (<[i := body]>) (world m))
               [Sent (Cosmos.items_upsert c body)]).
Proof.
  intros Hc Hs Hf Ht Hp body Hi.
  rewrite (set_upsert m this sid session cb n c) by done. fold body.
  unfold attempt. simpl. rewrite perform_no_faults by done. simpl.
  rewrite Hs, Hi. unfold body. by rewrite valid_ttl_upsert.
Qed.

(** X17.  Round trip.  On an account that answers, after [set] has
    upserted a record that has no [id] of its own, [get] of the same [sid]
    calls back with [(null, document)], the document being the record with
    [id] set to [sid] and [ttl] to the resolved TTL; the callback of [set]
    has not been called. *)
Theorem set_then_get m this sid session cb cb' c s n :
  container_of m this = Some c →
  find c (world m) = Some s →
  faults (world m) = [] →
  getTTL session m = (inr (Some n), m) →
  positive n = true →
  session !! "id" = None → sid ≠ "" →
  let body := <["ttl" := JNum n]> (<["id" := JStr sid]> session) in
  let m1 := snd (set this sid session cb m) in
  calls_of (since m m1) = [] ∧
  get this sid cb' m1 =
    (inr (), observed m1 (world m1)
               [Sent (Cosmos.item_read c sid sid);
                Called (default noop cb') [ArgNull; ArgValue (JObj body)]]).
Proof.
  intros Hc Hs Hf Ht Hp Hid Hsid body m1.
  assert (body = <["ttl" := JNum n]> (sessionItem sid session)) as Hbody.
  { unfold body, sessionItem. f_equal. apply map_eq. intros k.
    destruct (decide (k = "id")) as [->|Hk].
    - rewrite lookup_insert_eq. rewrite lookup_union_r by done.
      by rewrite lookup_singleton_eq.
    - rewrite lookup_insert_ne by done. symmetry. by apply sessionItem_other. }
  assert (set this sid session cb m =
            (inr (), observed m (with_items c (<[sid := body]>) (world m))
                       [Sent (Cosmos.items_upsert c body)])) as Hset.
  { rewrite Hbody. apply (set_on_account m this sid session cb c s n sid); try done.
    by apply body_id_upsert. }
  unfold m1. rewrite Hset. simpl. rewrite since_observed. split; [done|].
  erewrite get_on_account; [|done|by simpl; apply find_with_items|by simpl; rewrite faults_with_items].
  simpl. by rewrite lookup_insert_eq.
Qed.

(** X18.  On an account that answers, a record with an [id] of its own,
    different from [sid], is stored under its own id: after [set], [get] of
    [sid] finds what was there before, nothing if nothing was. *)
Theorem set_own_id_then_get m this sid session cb cb' c s n own :
  container_of m this = Some c →
  find c (world m) = Some s →
  faults (world m) = [] →
  getTTL session m = (inr (Some n), m) →
  positive n = true →
  session !! "id" = Some (JStr own) → own ≠ "" → own ≠ sid →
  let m1 := snd (set this sid session cb m) in
  stored (world m1) c own = Some (<["ttl" := JNum n]> (sessionItem sid session)) ∧
  stored (world m1) c sid = stored (world m) c sid ∧
  (stored (world m) c sid = None →
   get this sid cb' m1 =
     (inr (), observed m1 (world m1)
                [Sent (Cosmos.item_read c sid sid);
                 Called (default noop cb') [ArgNull; ArgNull]])).
Proof.
  intros Hc Hs Hf Ht Hp Hid Hown Hne m1.
  unfold m1.
  rewrite (set_on_account m this sid session cb c s n own); try done;
    [|by apply body_id_own].
  simpl. rewrite !(stored_with_items_insert _ c s) by done.
  rewrite decide_True by done. rewrite decide_False by (by intros [_ ?]).
  split_and!; [done..|]. intros Hnone.
  erewrite get_on_account; [|done|by simpl; apply find_with_items|by simpl; rewrite faults_with_items].
  simpl. rewrite lookup_insert_ne by done.
  unfold stored in Hnone. rewrite Hs in Hnone. simpl in Hnone. by rewrite Hnone.
Qed.

Lemma destroy_on_account m this sid cb c s d :
  container_of m this = Some c →
  find c (world m) = Some s →
  faults (world m) = [] →
  items s !! sid = Some d →
  destroy this sid cb m =
    (inr (), observed m (with_items c (delete sid) (world m))
               [Sent (Cosmos.item_delete c sid sid)]).
Proof.
  intros Hc Hs Hf Hd. rewrite (destroy_attempt m this sid cb c) by done.
  unfold attempt. simpl. rewrite perform_no_faults by done. simpl.
  by rewrite Hs, Hd, String.eqb_refl.
Qed.

(** X19.  On an account that answers, [destroy] of a stored session
    removes it and calls no callback; [get] then calls back with
    [(null, null)].  [destroy] of an id that is not stored reports the 404
    of the delete through its callback. *)
Theorem destroy_then_get m this sid cb cb' c s :
  container_of m this = Some c →
  find c (world m) = Some s →
  faults (world m) = [] →
  let m1 := snd (destroy this sid cb m) in
  (is_Some (items s !! sid) →
   calls_of (since m m1) = [] ∧
   get this sid cb' m1 =
     (inr (), observed m1 (world m1)
                [Sent (Cosmos.item_read c sid sid);
                 Called (default noop cb') [ArgNull; ArgNull]])) ∧
  (items s !! sid = None →
   world m1 = world m ∧
   calls_of (since m m1) = [(default noop cb, [ArgError (Cosmos.ErrorResponse 404)])]).
Proof.
  intros Hc Hs Hf m1. split.
  - intros [d Hd]. unfold m1.
    rewrite (destroy_on_account m this sid cb c s d) by done. simpl.
    rewrite since_observed. split; [done|].
    erewrite get_on_account; [|done|by simpl; apply find_with_items|by simpl; rewrite faults_with_items].
    simpl. by rewrite lookup_delete_eq.
  - intros Hd. unfold m1. rewrite (destroy_attempt m this sid cb c) by done.
    unfold attempt. simpl. rewrite perform_no_faults by done. simpl.
    rewrite Hs, Hd. simpl. by rewrite since_observed.
Qed.

End RoundTrips.

Section AccountMore.
Import MemCosmos.
Implicit Types (m : Machine Account) (a : Account) (c : Cosmos.Container)
  (session : SessionData) (cb : option Callback).

(** X20.  On an account that answers, [clear] leaves the configured
    container in place and empty, with default TTL -1 and partition key
    [/id] whatever its settings were, and calls no callback.  When the
    container does not exist, the delete fails with 404, which goes to the
    callback, and the container is not created. *)
Theorem clear_on_account m this cb d dn name cs :
  database_of m this = Some d →
  Cosmos.db_id d = Some dn →
  containerName (options m) = Some name →
  databases (world m) !! dn = Some cs →
  faults (world m) = [] →
  let c := Cosmos.Database_container d (Some name) in
  let m1 := snd (clear this cb m) in
  (is_Some (cs !! name) →
   find c (world m1) =
     Some {| defaultTtl := -1; partitionKey := "/id"; items := ∅ |} ∧
   calls_of (since m m1) = []) ∧
  (cs !! name = None →
   world m1 = world m ∧
   calls_of (since m m1) = [(default noop cb, [ArgError (Cosmos.ErrorResponse 404)])]).
Proof.
  intros Hd Hdn Hname Hcs Hf c m1. unfold database_of in Hd.
  assert (find c (world m) = cs !! name) as Hfind.
  { unfold find, c. simpl. rewrite Hdn. simpl. by rewrite Hcs. }
  unfold m1, clear, createContainer, this_database. unfold_M. simpl.
  rewrite Hd, Hname. simpl. fold c. rewrite perform_no_faults by done. simpl.
  rewrite Hfind, Hdn. split.
  - intros [s0 Hs0]. rewrite Hs0. simpl. rewrite Hd. simpl.
    rewrite perform_no_faults by done. simpl. rewrite Hdn.
    rewrite (lookup_alter_eq (M:=gmap string)), Hcs. simpl.
    rewrite Hname. rewrite lookup_delete_eq. simpl. split.
    + unfold find. simpl. rewrite Hdn. simpl. rewrite lookup_insert_eq. simpl.
      by rewrite lookup_insert_eq.
    + unfold since. simpl. rewrite <-app_assoc. by rewrite drop_app_length.
  - intros Hnone. rewrite Hnone. simpl. split; [done|].
    unfold since. simpl. rewrite <-app_assoc. by rewrite drop_app_length.
Qed.

(** X21.  Expiry on write.  On an account that answers, [set] of a
    record whose resolved TTL is negative leaves nothing stored under
    [sid], touches no other item, and never calls the caller's callback
    (when nothing was stored, the 404 of the delete goes to [noop]). *)
Theorem set_expired_on_account m this sid session cb c s z :
  container_of m this = Some c →
  find c (world m) = Some s →
  faults (world m) = [] →
  getTTL session m = (inr (Some (Num z)), m) →
  (z < 0)%Z →
  let m1 := snd (set this sid session cb m) in
  stored (world m1) c sid = None ∧
  (∀ j, j ≠ sid → stored (world m1) c j = stored (world m) c j) ∧
  ∀ name args, (Fn name, args) ∉ calls_of (since m m1).
Proof.
  intros Hc Hs Hf Ht Hz m1. unfold m1.
  rewrite (set_expired m this sid session cb (Num z)); [|done| |].
  2:{ unfold truthy, truthy_number. apply negb_true_iff, Z.eqb_neq. lia. }
  2:{ simpl. apply Z.leb_le. lia. }
  destruct (items s !! sid) as [d|] eqn:Hd.
  - rewrite (destroy_on_account m this sid None c s d) by done. simpl.
    rewrite since_observed. split_and!.
    + rewrite (stored_with_items_delete _ c s) by done. by rewrite decide_True.
    + intros j Hj. rewrite (stored_with_items_delete _ c s) by done.
      by rewrite decide_False.
    + intros name args Hin. simpl in Hin. by apply elem_of_nil in Hin.
  - rewrite (destroy_attempt m this sid None c) by done.
    unfold attempt. simpl. rewrite perform_no_faults by done. simpl.
    rewrite Hs, Hd. simpl. rewrite since_observed. split_and!.
    + unfold stored. by rewrite Hs.
    + done.
    + intros name args Hin. simpl in Hin.
      apply list_elem_of_singleton in Hin. done.
Qed.

(** X22.  On an account that answers, [touch] of a stored session that
    carries a [ttl] sets that [ttl] to the TTL resolved for the record
    passed in, when it is positive; the rest of the stored document stays,
    whatever the record passed in holds; the callback is called once, with
    no argument. *)
Theorem touch_on_account m this sid session cb c s d old n :
  truthy (disableTouch (options m)) = false →
  container_of m this = Some c →
  find c (world m) = Some s →
  faults (world m) = [] →
  items s !! sid = Some d →
  d !! "ttl" = Some old →
  getTTL session m = (inr (Some n), m) →
  positive n = true →
  let m1 := snd (touch this sid session cb m) in
  stored (world m1) c sid = Some (<["ttl" := JNum n]> d) ∧
  calls_of (since m m1) = [(default noop cb, [])].
Proof.
  intros Hdis Hc Hs Hf Hd Hold Ht Hp m1. unfold m1.
  rewrite (touch_enabled m this sid session cb c (Some n)) by done. simpl.
  rewrite since_observed. split; [|done].
  rewrite perform_no_faults by done. simpl.
  rewrite Hs, Hd, String.eqb_refl.
  unfold patch, patch1. change (path_key "/ttl") with (Some "ttl"). simpl.
  rewrite Hold. simpl. rewrite valid_ttl_upsert by done. simpl.
  rewrite (stored_with_items_insert _ c s) by done. by rewrite decide_True.
Qed.

End AccountMore.

(** *** These theorems at work on the scenario *)

Section MoreWitnesses.
Import Scenario Cases.

Ltac compute_eq := vm_compute; reflexivity.

Lemma get_calls_back_once_witness :
  calls_of (since holding (snd (get 0 "s1" (Some (Fn "got")) holding))) =
    [(Fn "got", [ArgNull; ArgValue (JObj held)])].
Proof.
  rewrite (get_calls_back_once holding 0 "s1" (Some (Fn "got")) sessions)
    by compute_eq.
  compute_eq.
Defined.

Lemma all_calls_back_once_witness :
  calls_of (since holding (snd (all 0 (Some (Fn "listed")) holding))) =
    [(Fn "listed", [ArgNull; ArgValue (JArr [JObj held])])].
Proof.
  rewrite (all_calls_back_once holding 0 (Some (Fn "listed")) sessions)
    by compute_eq.
  compute_eq.
Defined.

Lemma length_calls_back_once_witness :
  calls_of (since holding (snd (length 0 (Some (Fn "counted")) holding))) =
    [(Fn "counted", [ArgNull; ArgValue (JNum (Num 1))])].
Proof.
  rewrite (length_calls_back_once holding 0 (Some (Fn "counted")) sessions)
    by compute_eq.
  compute_eq.
Defined.

Lemma initializeStore_provisions_witness :
  requests_of (trace (snd (initializeStore defaultOptions uninitialized))) =
    [Cosmos.databases_createIfNotExists client (Some "database");
     Cosmos.containers_createIfNotExists
       {| Cosmos.db_client := client; Cosmos.db_id := Some "database" |}
       (Some "sessions") (-1) "/id"].
Proof.
  erewrite (initializeStore_provisions uninitialized defaultOptions client);
    [reflexivity | compute_eq ..].
Defined.

Lemma initializeStore_failure_keeps_instance_witness :
  _store broken = Some 0 ∧
  container_of broken 0 = None ∧
  initializeStore (with_ttl (TtlFunction five)) broken = (inr (Some 0), broken).
Proof.
  destruct (initializeStore_failure_keeps_instance unreachable defaultOptions
              (Cosmos.ErrorResponse 503)) as (Hs & Hc & Hnext); [compute_eq..|].
  split_and!; [exact Hs | exact Hc | apply Hnext; compute_eq].
Defined.

Lemma methods_without_container_witness :
  destroy 0 "s1" (Some (Fn "destroyed")) broken =
    (inr (), observed broken (world broken)
               [Called (Fn "destroyed")
                  [ArgError (Cosmos.TypeError "this.container.item")]]) ∧
  touch 0 "s1" unexpiring (Some (Fn "touched")) broken =
    (inr (), observed broken (world broken) [Called (Fn "touched") []]).
Proof.
  split.
  - apply (methods_without_container broken 0 "s1" unexpiring
             (Some (Fn "destroyed"))). compute_eq.
  - apply (methods_without_container broken 0 "s1" unexpiring
             (Some (Fn "touched"))); compute_eq.
Defined.

Lemma methods_keep_statics_witness :
  shape (exec (call_clear 0 None) holding) = shape holding.
Proof. apply methods_keep_statics. reflexivity. Defined.

Lemma reset_then_initializeStore_witness :
  _store (snd (initializeStore defaultOptions (snd (reset holding)))) = Some 1 ∧
  container_of (snd (initializeStore defaultOptions (snd (reset holding)))) 0 =
    Some sessions.
Proof.
  destruct (reset_then_initializeStore holding defaultOptions)
    as (_ & Hs & _ & _ & Hold); [compute_eq|].
  split.
  - rewrite Hs. compute_eq.
  - rewrite Hold; [compute_eq|]. vm_compute. by eexists.
Defined.

Lemma configured_ttl_is_used_witness :
  fst (getTTL unexpiring (ready_with (with_ttl (TtlNumber (Num 5))))) =
    inr (Some (Num 5)) ∧
  fst (getTTL unexpiring (ready_with falsy)) = inr (Some (Num 86400)).
Proof.
  split.
  - unfold ready_with.
    rewrite (proj1 (proj2 (configured_ttl_is_used uninitialized
                             (with_ttl (TtlNumber (Num 5))) unexpiring
                             eq_refl eq_refl)) eq_refl (Num 5) eq_refl).
    reflexivity.
  - unfold ready_with.
    rewrite (proj1 (proj2 (configured_ttl_is_used uninitialized falsy unexpiring
                             eq_refl eq_refl)) eq_refl (Num 0) eq_refl).
    reflexivity.
Defined.

Lemma set_after_reset_has_no_ttl_witness :
  fst (getTTL unexpiring (snd (reset ready))) = inr None ∧
  requests_of (since (snd (reset ready))
                 (snd (set 0 "s2" unexpiring None (snd (reset ready))))) =
    [Cosmos.items_create sessions (sessionItem "s2" unexpiring)].
Proof.
  destruct (set_after_reset_has_no_ttl ready 0 "s2" unexpiring None sessions)
    as [Ht Hset]; [compute_eq..|].
  split.
  - by rewrite Ht.
  - rewrite Hset. apply requests_of_attempt.
Defined.

Lemma set_invalid_date_has_no_ttl_witness :
  fst (getTTL invalid_date ready) = inr (Some NaN) ∧
  requests_of (since ready (snd (set 0 "s2" invalid_date None ready))) =
    [Cosmos.items_create sessions (sessionItem "s2" invalid_date)].
Proof.
  destruct (set_invalid_date_has_no_ttl ready 0 "s2" invalid_date None sessions
              invalid_cookie) as [Ht Hset]; [compute_eq..|].
  split.
  - by rewrite Ht.
  - rewrite Hset. apply requests_of_attempt.
Defined.

Lemma set_expired_deletes_sid_witness :
  set 0 "s1" (expiring 940000) (Some (Fn "saved")) holding =
    attempt (Cosmos.item_delete sessions "s1" "s1") noop holding.
Proof.
  apply (set_expired_deletes_sid holding 0 "s1" (expiring 940000)
           (Some (Fn "saved")) sessions (-60)); [compute_eq|lia|compute_eq].
Defined.

Lemma set_document_fields_witness :
  held !! "user" = Some (JStr "ann").
Proof.
  assert (Cosmos.items_upsert sessions held
            ∈ requests_of (since ready (snd (set 0 "s1" unexpiring None ready))))
    as Hin by (vm_compute; left).
  rewrite (set_document_fields ready 0 "s1" unexpiring None
             (Cosmos.items_upsert sessions held) held "user" Hin eq_refl);
    [compute_eq|done..].
Defined.

Lemma set_document_ttl_witness :
  ∃ n, getTTL unexpiring ready = (inr (Some n), ready) ∧ positive n = true ∧
       held !! "ttl" = Some (JNum n).
Proof.
  assert (Cosmos.items_upsert sessions held
            ∈ requests_of (since ready (snd (set 0 "s1" unexpiring None ready))))
    as Hin by (vm_compute; left).
  exact (set_document_ttl ready 0 "s1" unexpiring None
           (Cosmos.items_upsert sessions held) held Hin eq_refl).
Defined.

Lemma set_then_get_witness :
  calls_of (since holding (snd (get 0 "s1" (Some (Fn "got")) holding))) =
    [(Fn "got",
      [ArgNull;
       ArgValue (JObj (<["ttl" := JNum (Num 86400)]> (<["id" := JStr "s1"]> unexpiring)))])].
Proof.
  destruct (set_then_get ready 0 "s1" unexpiring None (Some (Fn "got")) sessions
              empty_container (Num 86400)) as [_ Hget]; [compute_eq..|done|].
  unfold holding. rewrite Hget. simpl. by rewrite since_observed.
Defined.

Lemma set_own_id_then_get_witness :
  let m1 := snd (set 0 "s1" with_own_id None ready) in
  stored (world m1) sessions "own" =
    Some (<["ttl" := JNum (Num 86400)]> (sessionItem "s1" with_own_id)) ∧
  stored (world m1) sessions "s1" = None.
Proof.
  intros m1.
  destruct (set_own_id_then_get ready 0 "s1" with_own_id None None sessions
              empty_container (Num 86400) "own") as (Hown & Hsid & _);
    [compute_eq..|done|done|].
  split; [exact Hown|]. unfold m1. rewrite Hsid. compute_eq.
Defined.

Lemma destroy_then_get_witness :
  let m1 := snd (destroy 0 "s1" (Some (Fn "destroyed")) holding) in
  calls_of (since holding m1) = [] ∧
  calls_of (since m1 (snd (get 0 "s1" (Some (Fn "got")) m1))) =
    [(Fn "got", [ArgNull; ArgNull])].
Proof.
  intros m1.
  destruct (destroy_then_get holding 0 "s1" (Some (Fn "destroyed"))
              (Some (Fn "got")) sessions
              {| MemCosmos.defaultTtl := -1; MemCosmos.partitionKey := "/id";
                 MemCosmos.items := {[ "s1" := held ]} |})
    as [Hstored _]; [compute_eq..|].
  destruct Hstored as [Hcalls Hget]; [vm_compute; by eexists|].
  split; [exact Hcalls|]. unfold m1. rewrite Hget. simpl.
  by rewrite since_observed.
Defined.

Lemma clear_on_account_witness :
  MemCosmos.find sessions (world (snd (clear 0 (Some (Fn "cleared")) holding))) =
    Some empty_container.
Proof.
  destruct (clear_on_account holding 0 (Some (Fn "cleared"))
              {| Cosmos.db_client := client; Cosmos.db_id := Some "database" |}
              "database" "sessions"
              {[ "sessions" :=
                   {| MemCosmos.defaultTtl := -1; MemCosmos.partitionKey := "/id";
                      MemCosmos.items := {[ "s1" := held ]} |} ]})
    as [Hexists _]; [compute_eq..|].
  destruct Hexists as [Hfind _]; [vm_compute; by eexists|]. exact Hfind.
Defined.

Lemma set_expired_on_account_witness :
  stored (world (snd (set 0 "s1" (expiring 940000) (Some (Fn "saved")) holding)))
    sessions "s1" = None.
Proof.
  apply (set_expired_on_account holding 0 "s1" (expiring 940000)
           (Some (Fn "saved")) sessions
           {| MemCosmos.defaultTtl := -1; MemCosmos.partitionKey := "/id";
              MemCosmos.items := {[ "s1" := held ]} |} (-60));
    [compute_eq..|lia].
Defined.

Lemma touch_on_account_witness :
  let m := ready_with (with_ttl (TtlNumber (Num 5))) in
  let m1 := snd (set 0 "s1" unexpiring None m) in
  let m2 := snd (touch 0 "s1" (expiring 1060000) (Some (Fn "touched")) m1) in
  stored (world m2) sessions "s1" =
    Some (<["ttl" := JNum (Num 60)]>
            (<["ttl" := JNum (Num 5)]> (sessionItem "s1" unexpiring))) ∧
  calls_of (since m1 m2) = [(Fn "touched", [])].
Proof.
  intros m m1 m2.
  apply (touch_on_account m1 0 "s1" (expiring 1060000) (Some (Fn "touched"))
           sessions
           {| MemCosmos.defaultTtl := -1; MemCosmos.partitionKey := "/id";
              MemCosmos.items :=
                {[ "s1" := <["ttl" := JNum (Num 5)]> (sessionItem "s1" unexpiring) ]} |}
           (<["ttl" := JNum (Num 5)]> (sessionItem "s1" unexpiring))
           (JNum (Num 5)) (Num 60)); compute_eq.
Defined.

End MoreWitnesses.
